(** * MoodChef: the recipe matching endpoint  POST /api/get-recipes

    A shallow embedding of the request handler of the MoodChef backend
    (the express server file and [seed.js]) together with the theorems
    that relate it to the written specification.

    Conventions of the embedding
    - JavaScript strings are [string]s; [toLowerCase] folds the ASCII
      letters A-Z, every other byte is left as it is.
    - A JavaScript array is a [list]; the document order of the collection
      (the order in which [find] without a sort key yields documents) is the
      order of the list [collection].
    - [await] on the store is a step of the state-and-exception monad [IO];
      the [try { ... } catch] of a handler is [try_catch].
    - A request body is typed: [mood] is a string and [ingredients] an array
      of strings when they are present. The [_id] and the timestamps that the
      store adds to a document are not read by the handlers and are left out
      of [Recipe.t]. *)

From Stdlib Require Import Ascii ZArith Lia.
From stdpp Require Import base list strings gmap sets sorting.

(** ** Strings *)

(** [String.prototype.toLowerCase], on ASCII text. *)
Definition lower_ascii (c : ascii) : ascii :=
  let n := nat_of_ascii c in
  if (65 <=? n) && (n <=? 90) then ascii_of_nat (n + 32) else c.

Fixpoint toLowerCase (s : string) : string :=
  match s with
  | EmptyString => EmptyString
  | String c s' => String (lower_ascii c) (toLowerCase s')
  end.

(** [Array.prototype.includes] on an array of strings: strict equality. *)
Fixpoint includes (l : list string) (x : string) : bool :=
  match l with
  | [] => false
  | y :: l' => String.eqb y x || includes l' x
  end.

(** ** The Recipe schema *)

Module Recipe.
Record t : Type := mk {
  name : string;
  moodTags : list string;
  ingredients : list string;
  description : string;
  cookingTime : string;
  instructions : string;
  moodDescription : string;
}.
End Recipe.

(** ** Queries of the store

    The fragment of the query language the server uses: [$in] on one of the
    two array fields, and [$and]. *)

Inductive Field := f_moodTags | f_ingredients.

#[warnings="-register-all"]
Inductive Query :=
| q_in (f : Field) (values : list string)      (* { f: { $in: values } } *)
| q_and (qs : list Query).                     (* { $and: qs } *)

Definition field (f : Field) (r : Recipe.t) : list string :=
  match f with
  | f_moodTags => Recipe.moodTags r
  | f_ingredients => Recipe.ingredients r
  end.

(** [$in] on an array field holds when some element of the array is one of
    the values. *)
Fixpoint matches (q : Query) (r : Recipe.t) : bool :=
  match q with
  | q_in f values => existsb (includes values) (field f r)
  | q_and qs => forallb (fun q' => matches q' r) qs
  end.

(** ** The world: the collection, the connection, and the queries issued

    [collection] holds the documents of the Recipe model in document order.
    [connected] tells whether the driver reaches the store: an operation on
    an unreachable store rejects, and the [catch] of the handler answers
    with status 500. [issued] records every [find] the server sends, oldest
    first; it is not part of the store, and the handlers never read it. *)

Record World := mkWorld {
  collection : list Recipe.t;
  connected : bool;
  issued : list Query;
}.

Inductive result (A : Type) :=
| Return (a : A)
| Throw (e : string).
Arguments Return {A} a.
Arguments Throw {A} e.

Definition IO (A : Type) : Type := World -> result A * World.

Definition io_ret {A} (a : A) : IO A := fun w => (Return a, w).

Definition io_bind {A B} (m : IO A) (k : A -> IO B) : IO B :=
  fun w =>
    match m w with
    | (Return a, w') => k a w'
    | (Throw e, w') => (Throw e, w')
    end.

Definition try_catch {A} (m : IO A) (h : string -> IO A) : IO A :=
  fun w =>
    match m w with
    | (Return a, w') => (Return a, w')
    | (Throw e, w') => h e w'
    end.

(** [x ← m; k] reads [const x = await m; k]. *)
#[global] Instance io_mret : MRet IO := @io_ret.
#[global] Instance io_mbind : MBind IO := fun A B k m => io_bind m k.

(** What a reachable store answers to [find(q).limit(n)]: the first [n]
    documents that satisfy [q], in document order. *)
Definition answer (q : Query) (n : nat) (docs : list Recipe.t) : list Recipe.t :=
  take n (List.filter (matches q) docs).

(** [Recipe.find(q).limit(n)] *)
Definition find (q : Query) (n : nat) : IO (list Recipe.t) :=
  fun w =>
    let w' := mkWorld (collection w) (connected w) (issued w ++ [q]) in
    if connected w
    then (Return (answer q n (collection w)), w')
    else (Throw "MongoNetworkError", w').

(** [Recipe.deleteMany({})] *)
Definition deleteMany : IO unit :=
  fun w =>
    if connected w
    then (Return tt, mkWorld [] (connected w) (issued w))
    else (Throw "MongoNetworkError", w).

(** [Recipe.insertMany(docs)] *)
Definition insertMany (docs : list Recipe.t) : IO (list Recipe.t) :=
  fun w =>
    if connected w
    then (Return docs, mkWorld (collection w ++ docs) (connected w) (issued w))
    else (Throw "MongoNetworkError", w).

(** ** Requests and responses *)

(** The JSON body of a request. The handler destructures [mood] and
    [ingredients]; a key is [None] when the body does not carry it. [limit]
    is a further key a client may send. *)
Module Body.
Record t : Type := mk {
  mood : option string;
  ingredients : option (list string);
  limit : option nat;
}.
End Body.

Inductive Response (A : Type) :=
| Json (payload : A)              (* res.json(payload), status 200 *)
| Status (code : nat) (error : string).   (* res.status(code).json({ error }) *)
Arguments Json {A} payload.
Arguments Status {A} code error.

Record ScoredRecipe := mkScored {
  recipe : Recipe.t;                     (* ...recipe.toObject() *)
  matchScore : nat;
  matchingIngredients : list string;
}.

(** ** POST /api/get-recipes *)

Definition scoreRecipe (ingredients : list string) (recipe : Recipe.t) : ScoredRecipe :=
  let matchingIngredients :=
    List.filter (fun ingredient => includes ingredients ingredient)
                (Recipe.ingredients recipe) in
  mkScored recipe (length matchingIngredients) matchingIngredients.

Definition scoredRecipes (ingredients : list string) (recipes : list Recipe.t)
  : list ScoredRecipe :=
  map (scoreRecipe ingredients) recipes.

(** The comparator [(a, b) => b.matchScore - a.matchScore]. *)
Definition compareFn (a b : ScoredRecipe) : Z :=
  Z.of_nat (matchScore b) - Z.of_nat (matchScore a).

(** [Array.prototype.sort] is a stable sort: [a] is moved behind [b] only
    when the comparator is positive on [(a, b)]. It is written here as an
    insertion sort; lemma [sort_unique] shows that every stable sort by
    [compareFn] returns the same list. *)
Section Sort.
Context {A : Type} (cmp : A -> A -> Z).

Fixpoint sort_insert (x : A) (l : list A) : list A :=
  match l with
  | [] => [x]
  | y :: l' => if (cmp x y <=? 0)%Z then x :: y :: l' else y :: sort_insert x l'
  end.

Fixpoint sort (l : list A) : list A :=
  match l with
  | [] => []
  | x :: l' => sort_insert x (sort l')
  end.
End Sort.

(** [.slice(0, n)] *)
Definition slice0 {A} (n : nat) (l : list A) : list A := take n l.

Definition topRecipes (scored : list ScoredRecipe) : list ScoredRecipe :=
  slice0 3 (sort compareFn scored).

Definition query (mood : string) (ingredients : list string) : Query :=
  q_and [ q_in f_moodTags [toLowerCase mood]; q_in f_ingredients ingredients ].

Definition broadQuery (ingredients : list string) : Query :=
  q_in f_ingredients ingredients.

Definition get_recipes (body : Body.t) : IO (Response (list ScoredRecipe)) :=
  try_catch
    (match Body.mood body, Body.ingredients body with
     | Some mood, Some ingredients =>
         if String.eqb mood "" || (length ingredients =? 0)
         then io_ret (Status 400 "Mood and ingredients are required")
         else
           recipes ← find (query mood ingredients) 10;
           recipes ← (if length recipes =? 0
                      then find (broadQuery ingredients) 10
                      else io_ret recipes);
           io_ret (Json (topRecipes (scoredRecipes ingredients recipes)))
     | _, _ => io_ret (Status 400 "Mood and ingredients are required")
     end)
    (fun _ => io_ret (Status 500 "Failed to fetch recipes")).

(** ** POST /api/seed-recipes and the catalog of [seed.js] *)

Section Catalog.
Local Open Scope string_scope.

Definition sampleRecipes : list Recipe.t := [
  Recipe.mk
    "Comfort Mac and Cheese"
    ["sad"; "stressed"]
    ["pasta"; "cheese"; "milk"; "butter"; "flour"]
    "Creamy, comforting mac and cheese that warms your heart and soul."
    "25 minutes"
    "1. Cook pasta according to package directions. 2. Make cheese sauce with butter, flour, milk, and cheese. 3. Mix pasta with sauce. 4. Bake until golden and bubbly."
    "Perfect comfort food to lift your spirits";
  Recipe.mk
    "Rainbow Veggie Stir-Fry"
    ["happy"; "bored"]
    ["bell pepper"; "broccoli"; "carrot"; "garlic"; "ginger"; "rice"]
    "Colorful and vibrant stir-fry packed with fresh vegetables and bold flavors."
    "15 minutes"
    "1. Heat oil in wok. 2. Add garlic and ginger. 3. Stir-fry vegetables until crisp-tender. 4. Season with soy sauce and serve over rice."
    "Bright colors and fresh flavors to match your happy mood";
  Recipe.mk
    "Soothing Tomato Basil Soup"
    ["stressed"; "sick"]
    ["tomato"; "onion"; "garlic"; "herbs"; "milk"]
    "Warm and soothing soup that calms your nerves and nourishes your body."
    "30 minutes"
    "1. Sauté onion and garlic. 2. Add tomatoes and herbs. 3. Simmer and blend until smooth. 4. Stir in milk and season to taste."
    "Gentle and calming, perfect for stress relief";
  Recipe.mk
    "Quick Avocado Toast"
    ["lazy"; "happy"]
    ["bread"; "cheese"; "tomato"; "herbs"]
    "Simple and satisfying toast that requires minimal effort but maximum flavor."
    "5 minutes"
    "1. Toast bread. 2. Mash avocado with seasonings. 3. Spread on toast. 4. Top with tomato and herbs."
    "Easy and quick when you don't feel like cooking";
  Recipe.mk
    "Romantic Mushroom Risotto"
    ["love"; "happy"]
    ["rice"; "mushroom"; "onion"; "garlic"; "cheese"]
    "Creamy, elegant risotto perfect for a romantic dinner at home."
    "45 minutes"
    "1. Sauté mushrooms and set aside. 2. Cook onion and garlic. 3. Add rice and cook until creamy. 4. Stir in mushrooms and cheese."
    "Elegant and romantic, perfect for date night";
  Recipe.mk
    "Healing Ginger Lentil Soup"
    ["sick"; "stressed"]
    ["lentils"; "ginger"; "garlic"; "onion"; "carrot"]
    "Nourishing soup packed with healing spices and protein-rich lentils."
    "35 minutes"
    "1. Sauté aromatics. 2. Add lentils and water. 3. Simmer until tender. 4. Season with healing spices."
    "Healing and nourishing for when you're under the weather";
  Recipe.mk
    "Spicy Chickpea Curry"
    ["bored"; "happy"]
    ["chickpeas"; "tomato"; "onion"; "garlic"; "ginger"; "spices"]
    "Bold and flavorful curry that awakens your taste buds and fights boredom."
    "40 minutes"
    "1. Build spice base with onion, garlic, ginger. 2. Add tomatoes and spices. 3. Add chickpeas and simmer. 4. Garnish with fresh herbs."
    "Exciting flavors to spice up your day";
  Recipe.mk
    "Lazy Day Pasta Primavera"
    ["lazy"; "happy"]
    ["pasta"; "broccoli"; "bell pepper"; "garlic"; "olive oil"]
    "Simple pasta dish with fresh vegetables that's easy to make but delicious."
    "20 minutes"
    "1. Cook pasta and vegetables together. 2. Toss with olive oil and garlic. 3. Season simply. 4. Serve immediately."
    "Minimal effort, maximum satisfaction";
  Recipe.mk
    "Mood-Boosting Smoothie Bowl"
    ["sad"; "happy"]
    ["oats"; "milk"; "yogurt"]
    "Creamy and nutritious bowl topped with mood-boosting ingredients."
    "10 minutes"
    "1. Blend frozen fruits with yogurt. 2. Pour into bowl. 3. Top with granola and fresh fruits. 4. Drizzle with honey."
    "Nutritious and colorful to brighten your mood";
  Recipe.mk
    "Comforting Potato Soup"
    ["sad"; "stressed"; "sick"]
    ["potato"; "onion"; "garlic"; "milk"; "butter"]
    "Creamy, hearty soup that provides ultimate comfort and warmth."
    "30 minutes"
    "1. Sauté onion and garlic. 2. Add potatoes and broth. 3. Simmer until tender. 4. Blend partially and add cream."
    "Warm and comforting, like a hug in a bowl";
  Recipe.mk
    "Energizing Quinoa Salad"
    ["happy"; "bored"]
    ["quinoa"; "cucumber"; "tomato"; "herbs"; "olive oil"]
    "Fresh and energizing salad packed with protein and vibrant vegetables."
    "25 minutes"
    "1. Cook quinoa and let cool. 2. Chop fresh vegetables. 3. Mix with herbs and dressing. 4. Let flavors meld before serving."
    "Fresh and energizing to boost your vitality";
  Recipe.mk
    "Love-Filled Stuffed Bell Peppers"
    ["love"; "happy"]
    ["bell pepper"; "rice"; "mushroom"; "cheese"; "herbs"]
    "Beautiful stuffed peppers that show love through every colorful bite."
    "50 minutes"
    "1. Hollow out bell peppers. 2. Prepare rice and mushroom filling. 3. Stuff peppers and top with cheese. 4. Bake until tender."
    "Made with love, perfect for sharing with someone special";
  Recipe.mk
    "Simple Herb Omelette"
    ["lazy"; "happy"]
    ["eggs"; "herbs"; "cheese"; "butter"]
    "Fluffy omelette with fresh herbs that's quick and satisfying."
    "8 minutes"
    "1. Beat eggs with herbs. 2. Heat butter in pan. 3. Cook omelette until set. 4. Add cheese and fold."
    "Quick and easy comfort food";
  Recipe.mk
    "Warming Golden Turmeric Rice"
    ["sick"; "stressed"]
    ["rice"; "turmeric"; "ginger"; "garlic"; "coconut oil"]
    "Anti-inflammatory golden rice that soothes and heals from within."
    "25 minutes"
    "1. Heat coconut oil and add spices. 2. Add rice and toast briefly. 3. Add water and simmer. 4. Let steam and fluff."
    "Healing golden goodness to restore your energy";
  Recipe.mk
    "Adventure Spice Mix Roasted Vegetables"
    ["bored"; "happy"]
    ["potato"; "carrot"; "broccoli"; "spices"; "olive oil"]
    "Exciting roasted vegetables with bold spice combinations to cure boredom."
    "35 minutes"
    "1. Cut vegetables uniformly. 2. Toss with oil and spice mix. 3. Roast until caramelized. 4. Garnish with fresh herbs."
    "Bold flavors and textures to excite your palate"
].
End Catalog.

(** [seed.js] holds the same catalog under the name [seedRecipes]. *)
Definition seedRecipes : list Recipe.t := sampleRecipes.

Record SeedReply := mkSeedReply { message : string; count : nat }.

Definition seed_recipes : IO (Response SeedReply) :=
  try_catch
    (_ ← deleteMany;
     _ ← insertMany sampleRecipes;
     io_ret (Json (mkSeedReply "Database seeded successfully" (length sampleRecipes))))
    (fun _ => io_ret (Status 500 "Failed to seed database")).

(** The catalog as the seeding endpoint leaves it in a reachable store. *)
Definition seeded (w : World) : World := snd (seed_recipes w).

(** ** Vocabulary of the specification *)

(** The records the handler goes on to score: the answer to the primary
    query, or the answer to the broad query when the primary one is empty
    (lemma [get_recipes_run] below). *)
Definition fired (mood : string) (ingredients : list string) (docs : list Recipe.t)
  : list Recipe.t :=
  match answer (query mood ingredients) 10 docs with
  | [] => answer (broadQuery ingredients) 10 docs
  | primary => primary
  end.

(** A recipe shares an ingredient with the request. *)
Definition shares_ingredient (ingredients : list string) (r : Recipe.t) : Prop :=
  ∃ i, i ∈ Recipe.ingredients r ∧ i ∈ ingredients.

(** A recipe is tagged with the lowercased mood and shares an ingredient. *)
Definition mood_and_ingredient (mood : string) (ingredients : list string)
    (r : Recipe.t) : Prop :=
  toLowerCase mood ∈ Recipe.moodTags r ∧ shares_ingredient ingredients r.

(** The request is rejected as invalid. *)
Definition invalid_request (body : Body.t) : Prop :=
  Body.mood body = None ∨ Body.mood body = Some ""%string ∨
  Body.ingredients body = None ∨ Body.ingredients body = Some [].

(** Entries of a scored list that carry the score [k], in list order. *)
Definition with_score (k : nat) (l : list ScoredRecipe) : list ScoredRecipe :=
  List.filter (fun s => matchScore s =? k) l.

(** [desc a b]: [a] may stand before [b] in a list sorted by falling score. *)
Definition desc (a b : ScoredRecipe) : Prop := matchScore b ≤ matchScore a.

(** [fetches n P docs out]: [out] holds at most [n] records of [docs], in
    document order, each of which satisfies [P]; no satisfying record is left
    out unless the bound [n] is reached; in particular [out] is empty exactly
    when no record of [docs] satisfies [P]. *)
Definition fetches (n : nat) (P : Recipe.t → Prop) (docs out : list Recipe.t) : Prop :=
  length out ≤ n ∧
  out `sublist_of` docs ∧
  (∀ r, r ∈ out → P r) ∧
  (∀ r, r ∈ docs → P r → length out < n → r ∈ out) ∧
  (out = [] ↔ ∀ r, r ∈ docs → ¬ P r).

(** The replies of the two error branches. *)
Definition bad_request : Response (list ScoredRecipe) :=
  Status 400 "Mood and ingredients are required".

Definition server_error : Response (list ScoredRecipe) :=
  Status 500 "Failed to fetch recipes".

(** The queries a run with a well-formed body sends to a reachable store. *)
Definition sent (mood : string) (ingredients : list string) (docs : list Recipe.t)
  : list Query :=
  match answer (query mood ingredients) 10 docs with
  | [] => [query mood ingredients; broadQuery ingredients]
  | _ => [query mood ingredients]
  end.

(** ** Sample requests *)

Section Examples.
Local Open Scope string_scope.

(** A reachable store that holds the catalog, before any query. *)
Definition catalog_store : World := mkWorld sampleRecipes true [].

Definition excited_request : Body.t :=
  Body.mk (Some "excited") (Some ["rice"; "mushroom"]) None.

Definition stressed_request : Body.t :=
  Body.mk (Some "stressed")
          (Some ["pasta"; "cheese"; "milk"; "butter"; "flour"]) None.

Definition nonexistent_request : Body.t :=
  Body.mk (Some "happy") (Some ["nonexistent-item"]) None.

(** The stressed request, with a [limit] of 1. *)
Definition limited_request : Body.t :=
  Body.mk (Some "stressed")
          (Some ["pasta"; "cheese"; "milk"; "butter"; "flour"]) (Some 1).

(** The first record of the catalog. *)
Definition mac_and_cheese : Recipe.t :=
  Recipe.mk "Comfort Mac and Cheese" ["sad"; "stressed"]
    ["pasta"; "cheese"; "milk"; "butter"; "flour"]
    "Creamy, comforting mac and cheese that warms your heart and soul."
    "25 minutes"
    "1. Cook pasta according to package directions. 2. Make cheese sauce with butter, flour, milk, and cheese. 3. Mix pasta with sauce. 4. Bake until golden and bubbly."
    "Perfect comfort food to lift your spirits".

End Examples.

(** The invariants of the data model: a record has mood tags and
    ingredients, lists none of them twice, and writes them in lower case. *)
Definition well_kept (r : Recipe.t) : Prop :=
  Recipe.moodTags r ≠ [] ∧ Recipe.ingredients r ≠ [] ∧
  NoDup (Recipe.moodTags r) ∧ NoDup (Recipe.ingredients r) ∧
  Forall (fun x => toLowerCase x = x) (Recipe.moodTags r ++ Recipe.ingredients r).

(** * The other routes of the server *)

(** ** GET /api/recipes *)

(** [Recipe.find()]: the empty filter [{}], written [q_and []], and no
    limit. *)
Definition find_all : IO (list Recipe.t) :=
  fun w =>
    let w' := mkWorld (collection w) (connected w) (issued w ++ [q_and []]) in
    if connected w
    then (Return (List.filter (matches (q_and [])) (collection w)), w')
    else (Throw "MongoNetworkError", w').

Definition get_all_recipes : IO (Response (list Recipe.t)) :=
  try_catch
    (recipes ← find_all;
     io_ret (Json recipes))
    (fun _ => io_ret (Status 500 "Failed to fetch recipes")).

(** * [seed.js] *)

(** [moodCounts[mood] = (moodCounts[mood] || 0) + 1], for a mood that is
    not the name of a member of [Object.prototype]. *)
Definition count_mood (moodCounts : gmap string nat) (mood : string)
  : gmap string nat :=
  <[mood := default 0 (moodCounts !! mood) + 1]> moodCounts.

(** The two nested [forEach] loops over an array of recipes. *)
Definition count_moods (recipes : list Recipe.t) : gmap string nat :=
  foldl (fun moodCounts recipe => foldl count_mood moodCounts (Recipe.moodTags recipe))
        ∅ recipes.

(** The summary [seedDatabase] prints: the own keys of [moodCounts]. *)
Definition moodCounts : gmap string nat := count_moods seedRecipes.

(** Occurrences of a mood in an array of tags, and in the tags of an
    array of recipes. *)
Definition occurrences (mood : string) (tags : list string) : nat :=
  length (List.filter (String.eqb mood) tags).

Fixpoint tagged (mood : string) (recipes : list Recipe.t) : nat :=
  match recipes with
  | [] => 0
  | r :: recipes' => occurrences mood (Recipe.moodTags r) + tagged mood recipes'
  end.

(** The entry of a map after [n] further counts of its key. *)
Definition counted (old : option nat) (n : nat) : option nat :=
  match n with
  | 0 => old
  | S _ => Some (default 0 old + n)
  end.

(** [seedDatabase]: the value is the exit code of the process. *)
Definition seedDatabase : IO nat :=
  try_catch
    (_ ← deleteMany;
     insertedRecipes ← insertMany seedRecipes;
     io_ret 0)
    (fun _ => io_ret 1).

(** * The client, [App.js] *)

Inductive Screen := screen_mood | screen_ingredients | screen_results.

(** What [response.json()] yields for a reply of the server: the array of a
    200 reply, or the object [{ error }] of a 400 or 500 reply. *)
Inductive Data :=
| data_list (l : list ScoredRecipe)
| data_error (error : string).

Definition data_of (r : Response (list ScoredRecipe)) : Data :=
  match r with
  | Json l => data_list l
  | Status _ e => data_error e
  end.

(** The state of the component. *)
Module App.
Record t : Type := mk {
  currentScreen : Screen;
  selectedMood : string;
  customMood : string;
  selectedIngredients : list string;
  availableIngredients : list string;
  recipes : Data;
  loading : bool;
}.
End App.

(** The two items of AsyncStorage. The item [selectedIngredients] holds the
    text [JSON.stringify] makes of an array of strings; it is represented by
    the array that [JSON.parse] reads back from it. An item is [None] when it
    was never set. *)
Module Storage.
Record t : Type := mk {
  selectedMood : option string;
  selectedIngredients : option (list string);
}.
End Storage.

(** The device: the component, its storage, and the alerts shown so far
    (title and text, oldest first). *)
Record Device := mkDevice {
  app : App.t;
  storage : Storage.t;
  alerts : list (string * string);
}.

Definition with_app (f : App.t → App.t) (d : Device) : Device :=
  mkDevice (f (app d)) (storage d) (alerts d).

Definition alert (title text : string) (d : Device) : Device :=
  mkDevice (app d) (storage d) (alerts d ++ [(title, text)]).

Definition setCurrentScreen (x : Screen) (a : App.t) : App.t :=
  App.mk x (App.selectedMood a) (App.customMood a) (App.selectedIngredients a)
         (App.availableIngredients a) (App.recipes a) (App.loading a).

Definition setSelectedMood (x : string) (a : App.t) : App.t :=
  App.mk (App.currentScreen a) x (App.customMood a) (App.selectedIngredients a)
         (App.availableIngredients a) (App.recipes a) (App.loading a).

Definition setCustomMood (x : string) (a : App.t) : App.t :=
  App.mk (App.currentScreen a) (App.selectedMood a) x (App.selectedIngredients a)
         (App.availableIngredients a) (App.recipes a) (App.loading a).

Definition setSelectedIngredients (x : list string) (a : App.t) : App.t :=
  App.mk (App.currentScreen a) (App.selectedMood a) (App.customMood a) x
         (App.availableIngredients a) (App.recipes a) (App.loading a).

Definition setAvailableIngredients (x : list string) (a : App.t) : App.t :=
  App.mk (App.currentScreen a) (App.selectedMood a) (App.customMood a)
         (App.selectedIngredients a) x (App.recipes a) (App.loading a).

Definition setRecipes (x : Data) (a : App.t) : App.t :=
  App.mk (App.currentScreen a) (App.selectedMood a) (App.customMood a)
         (App.selectedIngredients a) (App.availableIngredients a) x (App.loading a).

Definition setLoading (x : bool) (a : App.t) : App.t :=
  App.mk (App.currentScreen a) (App.selectedMood a) (App.customMood a)
         (App.selectedIngredients a) (App.availableIngredients a) (App.recipes a) x.

(** The state of the first render. *)
Definition initial_app : App.t :=
  App.mk screen_mood "" "" [] [] (data_list []) false.

Definition loadSavedData (d : Device) : Device :=
  let d1 :=
    match Storage.selectedMood (storage d) with
    | Some savedMood =>
        if String.eqb savedMood "" then d
        else with_app (setSelectedMood savedMood) d
    | None => d
    end in
  match Storage.selectedIngredients (storage d) with
  | Some savedIngredients => with_app (setSelectedIngredients savedIngredients) d1
  | None => d1
  end.

Definition saveData (d : Device) : Device :=
  mkDevice (app d)
           (Storage.mk (Some (App.selectedMood (app d)))
                       (Some (App.selectedIngredients (app d))))
           (alerts d).

Definition handleMoodSelect (mood : string) (a : App.t) : App.t :=
  setCustomMood "" (setSelectedMood mood a).

Definition toggle (ingredient : string) (selectedIngredients : list string)
  : list string :=
  if includes selectedIngredients ingredient
  then List.filter (fun item => negb (String.eqb item ingredient)) selectedIngredients
  else selectedIngredients ++ [ingredient].

Definition handleIngredientToggle (ingredient : string) (a : App.t) : App.t :=
  setSelectedIngredients (toggle ingredient (App.selectedIngredients a)) a.

(** [customMood || selectedMood] *)
Definition finalMood (a : App.t) : string :=
  if String.eqb (App.customMood a) "" then App.selectedMood a else App.customMood a.

(** The body of the POST: [{ mood: finalMood, ingredients: selectedIngredients }]. *)
Definition posted (a : App.t) : Body.t :=
  Body.mk (Some (finalMood a)) (Some (App.selectedIngredients a)) None.

(** The request can be sent: a mood is selected or typed, and an ingredient
    is selected. *)
Definition complete (a : App.t) : Prop :=
  (App.selectedMood a ≠ ""%string ∨ App.customMood a ≠ ""%string) ∧
  App.selectedIngredients a ≠ [].

(** [submitRequest]. [online] tells whether [fetch] reaches the server; the
    server runs [get_recipes] on the posted body. *)
Definition submitRequest (online : bool) (d : Device) (w : World) : Device * World :=
  let a := app d in
  if String.eqb (App.selectedMood a) "" && String.eqb (App.customMood a) ""
  then (alert "Error" "Please select a mood or enter a custom mood." d, w)
  else if length (App.selectedIngredients a) =? 0
  then (alert "Error" "Please select at least one ingredient." d, w)
  else
    let d1 := with_app (setLoading true) d in
    if online
    then
      match get_recipes (posted a) w with
      | (Return response, w') =>
          let d2 := with_app (setRecipes (data_of response)) d1 in
          let d3 := with_app (setCurrentScreen screen_results) d2 in
          let d4 := saveData d3 in
          (with_app (setLoading false) d4, w')
      | (Throw _, w') =>
          (with_app (setLoading false)
             (alert "Error" "Failed to get recipes. Please check your connection." d1),
           w')
      end
    else
      (with_app (setLoading false)
         (alert "Error" "Failed to get recipes. Please check your connection." d1),
       w).

(** The handler of the New Search button. *)
Definition newSearch (a : App.t) : App.t :=
  setSelectedIngredients []
    (setCustomMood "" (setSelectedMood "" (setRecipes (data_list [])
       (setCurrentScreen screen_mood a)))).

(** One card of the results screen: the texts it shows. *)
Record Card := mkCard {
  card_name : string;
  card_description : string;
  card_time : string;
  card_moodMatch : string;
  card_ingredients : string;
  card_instructions : string;
}.

Definition card (s : ScoredRecipe) : Card :=
  let r := recipe s in
  mkCard (Recipe.name r) (Recipe.description r)
         ("⏰ " ++ Recipe.cookingTime r) ("💚 " ++ Recipe.moodDescription r)
         (String.concat ", " (Recipe.ingredients r)) (Recipe.instructions r).

(** What [ResultsScreen] renders from the state [recipes]. An error object
    has no [length] and no [map]: the test [recipes.length === 0] is false and
    the call [recipes.map] throws. *)
Inductive ResultsView :=
| NoRecipes
| Cards (cards : list Card)
| RenderError.

Definition ResultsScreen (recipes : Data) : ResultsView :=
  match recipes with
  | data_list l => if length l =? 0 then NoRecipes else Cards (map card l)
  | data_error _ => RenderError
  end.

(** ** Sample states of the client *)

(** A mood is selected and another is typed; two ingredients are selected. *)
Definition typed_mood_app : App.t :=
  App.mk screen_ingredients "happy" "Stressed" ["milk"; "butter"]%string []
         (data_list []) false.

(** A mood is selected, no ingredient is. *)
Definition no_ingredient_app : App.t :=
  App.mk screen_ingredients "happy" "" [] [] (data_list []) false.

Definition sample_device (a : App.t) : Device :=
  mkDevice a (Storage.mk None None) [].

(** * Facts *)

(** ** Membership tests *)

Lemma includes_elem_of (l : list string) (x : string) :
  includes l x = true ↔ x ∈ l.
Proof.
  induction l as [|y l IH]; simpl.
  - split; [discriminate | intros H; inversion H].
  - rewrite orb_true_iff, IH, String.eqb_eq, elem_of_cons. intuition congruence.
Qed.

Lemma includes_not_elem_of (l : list string) (x : string) :
  includes l x = false ↔ x ∉ l.
Proof.
  rewrite <- includes_elem_of. destruct (includes l x); intuition congruence.
Qed.

Lemma existsb_elem_of {A} (f : A → bool) (l : list A) :
  existsb f l = true ↔ ∃ x, x ∈ l ∧ f x = true.
Proof.
  rewrite existsb_exists. setoid_rewrite list_elem_of_In. reflexivity.
Qed.

Lemma filter_elem_of {A} (f : A → bool) (l : list A) (x : A) :
  x ∈ List.filter f l ↔ x ∈ l ∧ f x = true.
Proof. rewrite !list_elem_of_In. apply filter_In. Qed.

Lemma filter_sublist {A} (f : A → bool) (l : list A) :
  List.filter f l `sublist_of` l.
Proof.
  induction l as [|x l IH]; simpl; [constructor|].
  destruct (f x); by constructor.
Qed.

Lemma filter_take_prefix {A} (f : A → bool) (n : nat) (l : list A) :
  List.filter f (take n l) `prefix_of` List.filter f l.
Proof.
  rewrite <- (take_drop n l) at 2. rewrite List.filter_app.
  by apply prefix_app_r.
Qed.

Lemma filter_nil_iff {A} (f : A → bool) (l : list A) :
  List.filter f l = [] ↔ ∀ x, x ∈ l → f x = false.
Proof.
  induction l as [|x l IH]; simpl.
  - split; [intros _ y Hy; inversion Hy | done].
  - destruct (f x) eqn:E.
    + split; [discriminate|]. intros H. specialize (H x). rewrite E in H.
      discriminate H. left.
    + rewrite IH. split.
      * intros H y Hy. apply elem_of_cons in Hy as [->|Hy]; auto.
      * intros H y Hy. apply H. by right.
Qed.

(** ** Queries *)

Lemma matches_in (f : Field) (values : list string) (r : Recipe.t) :
  matches (q_in f values) r = true ↔ ∃ x, x ∈ field f r ∧ x ∈ values.
Proof.
  simpl. rewrite existsb_elem_of. by setoid_rewrite includes_elem_of.
Qed.

Lemma matches_broadQuery (ingredients : list string) (r : Recipe.t) :
  matches (broadQuery ingredients) r = true ↔ shares_ingredient ingredients r.
Proof. apply matches_in. Qed.

Lemma matches_query (mood : string) (ingredients : list string) (r : Recipe.t) :
  matches (query mood ingredients) r = true ↔ mood_and_ingredient mood ingredients r.
Proof.
  unfold query, mood_and_ingredient, shares_ingredient. simpl.
  rewrite andb_true_r, andb_true_iff, !existsb_elem_of.
  setoid_rewrite includes_elem_of.
  setoid_rewrite orb_false_r. setoid_rewrite String.eqb_eq.
  split; intros [H1 H2]; split; auto.
  - destruct H1 as (x & Hx & ->). done.
  - by exists (toLowerCase mood).
Qed.

Lemma answer_length (q : Query) (n : nat) (docs : list Recipe.t) :
  length (answer q n docs) ≤ n.
Proof. unfold answer. rewrite length_take. lia. Qed.

Lemma answer_elem_of (q : Query) (n : nat) (docs : list Recipe.t) (r : Recipe.t) :
  r ∈ answer q n docs → r ∈ docs ∧ matches q r = true.
Proof.
  unfold answer. intros H. apply filter_elem_of.
  eapply elem_of_sublist; [exact H | apply sublist_take].
Qed.

Lemma answer_sublist (q : Query) (n : nat) (docs : list Recipe.t) :
  answer q n docs `sublist_of` docs.
Proof.
  unfold answer. etrans; [apply sublist_take | apply filter_sublist].
Qed.

Lemma answer_nil_iff (q : Query) (n : nat) (docs : list Recipe.t) :
  0 < n → (answer q n docs = [] ↔ ∀ r, r ∈ docs → matches q r = false).
Proof.
  intros Hn. unfold answer. rewrite <- filter_nil_iff.
  destruct (List.filter (matches q) docs); destruct n; simpl; try lia; try done.
Qed.

(** ** Scoring *)

Lemma filter_includes_intersection (ingredients l : list string) :
  List.filter (fun ingredient => includes ingredients ingredient) l
  = list_intersection l ingredients.
Proof.
  induction l as [|x l IH]; simpl; [done|].
  rewrite IH.
  destruct (includes ingredients x) eqn:E; destruct (decide_rel _ _ _) as [H|H];
    try done.
  - apply includes_elem_of in E. contradiction.
  - apply includes_not_elem_of in E. contradiction.
Qed.

Lemma intersection_size (l k : list string) :
  NoDup l →
  length (list_intersection l k) = size (list_to_set l ∩ list_to_set k : gset string).
Proof.
  intros Hl.
  rewrite <- (size_list_to_set (C := gset string) (list_intersection l k))
    by by apply NoDup_list_intersection.
  f_equal. apply set_eq. intros x.
  rewrite elem_of_intersection, !elem_of_list_to_set.
  apply list_elem_of_intersection.
Qed.

Lemma matchScore_scoreRecipe (ingredients : list string) (r : Recipe.t) :
  matchScore (scoreRecipe ingredients r)
  = length (matchingIngredients (scoreRecipe ingredients r)).
Proof. reflexivity. Qed.

Lemma matchingIngredients_scoreRecipe (ingredients : list string) (r : Recipe.t) :
  matchingIngredients (scoreRecipe ingredients r)
  = list_intersection (Recipe.ingredients r) ingredients.
Proof. apply filter_includes_intersection. Qed.

Lemma scoreRecipe_positive (ingredients : list string) (r : Recipe.t) :
  shares_ingredient ingredients r → 1 ≤ matchScore (scoreRecipe ingredients r).
Proof.
  intros (i & Hr & Hi).
  rewrite matchScore_scoreRecipe, matchingIngredients_scoreRecipe.
  assert (H : i ∈ list_intersection (Recipe.ingredients r) ingredients)
    by by apply list_elem_of_intersection.
  destruct (list_intersection (Recipe.ingredients r) ingredients); simpl.
  - inversion H.
  - lia.
Qed.

Lemma scoredRecipes_lookup (ingredients : list string) (recipes : list Recipe.t) (i : nat) :
  scoredRecipes ingredients recipes !! i = scoreRecipe ingredients <$> recipes !! i.
Proof. unfold scoredRecipes. apply list_lookup_fmap. Qed.

Lemma elem_of_scoredRecipes (ingredients : list string) (recipes : list Recipe.t)
    (s : ScoredRecipe) :
  s ∈ scoredRecipes ingredients recipes ↔
  ∃ r, s = scoreRecipe ingredients r ∧ r ∈ recipes.
Proof. unfold scoredRecipes. apply list_elem_of_fmap. Qed.

(** ** Sorting *)

Section SortFacts.
Context {A : Type} (cmp : A → A → Z).

Lemma sort_insert_Permutation (x : A) (l : list A) :
  sort_insert cmp x l ≡ₚ x :: l.
Proof.
  induction l as [|y l IH]; simpl; [done|].
  destruct (cmp x y <=? 0)%Z; [done|].
  rewrite IH. apply Permutation_swap.
Qed.

Lemma sort_Permutation (l : list A) : sort cmp l ≡ₚ l.
Proof.
  induction l as [|x l IH]; simpl; [done|].
  by rewrite sort_insert_Permutation, IH.
Qed.

Lemma sort_length (l : list A) : length (sort cmp l) = length l.
Proof. apply Permutation_length, sort_Permutation. Qed.
End SortFacts.

Lemma compareFn_le (a b : ScoredRecipe) :
  (compareFn a b <=? 0)%Z = true ↔ desc a b.
Proof. unfold compareFn, desc. rewrite Z.leb_le. lia. Qed.

Lemma compareFn_gt (a b : ScoredRecipe) :
  (compareFn a b <=? 0)%Z = false ↔ matchScore a < matchScore b.
Proof. unfold compareFn. rewrite Z.leb_gt. lia. Qed.

Lemma sort_insert_desc (x : ScoredRecipe) (l : list ScoredRecipe) :
  StronglySorted desc l → StronglySorted desc (sort_insert compareFn x l).
Proof.
  induction l as [|y l IH]; simpl; intros Hl.
  - repeat constructor.
  - destruct (compareFn x y <=? 0)%Z eqn:E.
    + apply compareFn_le in E. apply StronglySorted_cons in Hl as Hl'.
      destruct Hl' as [Hy _]. constructor; [done|].
      constructor; [done|]. eapply Forall_impl; [exact Hy|].
      unfold desc in *. intros; lia.
    + apply compareFn_gt in E. apply StronglySorted_cons in Hl as [Hy Hl].
      apply StronglySorted_cons. split; [|by apply IH].
      rewrite (sort_insert_Permutation compareFn x l).
      constructor; [unfold desc; lia | done].
Qed.

Lemma sort_desc (l : list ScoredRecipe) : StronglySorted desc (sort compareFn l).
Proof.
  induction l as [|x l IH]; simpl; [constructor | by apply sort_insert_desc].
Qed.

Lemma with_score_sort_insert (k : nat) (x : ScoredRecipe) (l : list ScoredRecipe) :
  with_score k (sort_insert compareFn x l) = with_score k (x :: l).
Proof.
  unfold with_score.
  induction l as [|y l IH]; simpl; [done|].
  destruct (compareFn x y <=? 0)%Z eqn:E; [done|].
  apply compareFn_gt in E. simpl in *. rewrite IH.
  destruct (matchScore x =? k) eqn:Ex; [|done].
  apply Nat.eqb_eq in Ex.
  destruct (matchScore y =? k) eqn:Ey; [|done].
  apply Nat.eqb_eq in Ey. lia.
Qed.

(** The sort is stable: entries with one score keep their order. *)
Lemma with_score_sort (k : nat) (l : list ScoredRecipe) :
  with_score k (sort compareFn l) = with_score k l.
Proof.
  induction l as [|x l IH]; simpl; [done|].
  rewrite with_score_sort_insert. unfold with_score in *. simpl. by rewrite IH.
Qed.

Lemma StronglySorted_take {A} (R : relation A) (n : nat) (l : list A) :
  StronglySorted R l → StronglySorted R (take n l).
Proof.
  intros H. rewrite <- (take_drop n l) in H.
  by apply StronglySorted_app_1_l in H.
Qed.

Lemma StronglySorted_adjacent {A} (R : relation A) (l : list A) (i : nat) (a b : A) :
  StronglySorted R l → l !! i = Some a → l !! S i = Some b → R a b.
Proof.
  intros H. revert i. induction H as [|x l Hl IH Hx]; intros i Ha Hb.
  - discriminate.
  - destruct i as [|i]; simpl in *.
    + injection Ha as ->. rewrite Forall_forall in Hx. apply Hx.
      by eapply list_elem_of_lookup_2.
    + by eapply IH.
Qed.

(** A stable sort by falling score has one possible result, so the choice
    of the sorting algorithm does not show in [topRecipes]. *)
Lemma stable_sorted_unique (l1 l2 : list ScoredRecipe) :
  StronglySorted desc l1 → StronglySorted desc l2 →
  (∀ k, with_score k l1 = with_score k l2) → l1 = l2.
Proof.
  intros H1. revert l2.
  induction H1 as [|a t1 Ht1 IH Ha]; intros l2 H2 Heq.
  - destruct l2 as [|b t2]; [done|].
    specialize (Heq (matchScore b)). unfold with_score in Heq. simpl in Heq.
    by rewrite Nat.eqb_refl in Heq.
  - destruct H2 as [|b t2 Ht2 Hb].
    { specialize (Heq (matchScore a)). unfold with_score in Heq. simpl in Heq.
      by rewrite Nat.eqb_refl in Heq. }
    assert (Hab : matchScore a = matchScore b).
    { apply Nat.le_antisymm.
      - assert (Hin : a ∈ with_score (matchScore a) (b :: t2)).
        { rewrite <- Heq. unfold with_score. simpl. rewrite Nat.eqb_refl. left. }
        apply filter_elem_of in Hin as [Hin _].
        apply elem_of_cons in Hin as [->|Hin]; [done|].
        rewrite Forall_forall in Hb. by apply Hb.
      - assert (Hin : b ∈ with_score (matchScore b) (a :: t1)).
        { rewrite Heq. unfold with_score. simpl. rewrite Nat.eqb_refl. left. }
        apply filter_elem_of in Hin as [Hin _].
        apply elem_of_cons in Hin as [->|Hin]; [done|].
        rewrite Forall_forall in Ha. by apply Ha. }
    assert (a = b) as ->.
    { specialize (Heq (matchScore a)). unfold with_score in Heq. simpl in Heq.
      rewrite <- Hab, Nat.eqb_refl in Heq. congruence. }
    f_equal. apply IH; [done|]. intros k. specialize (Heq k).
    unfold with_score in *. simpl in Heq.
    destruct (matchScore b =? k); congruence.
Qed.

Lemma sort_unique (l l' : list ScoredRecipe) :
  StronglySorted desc l' → (∀ k, with_score k l' = with_score k l) →
  l' = sort compareFn l.
Proof.
  intros Hs Hk. apply stable_sorted_unique; [done | apply sort_desc |].
  intros k. by rewrite Hk, with_score_sort.
Qed.

(** ** Runs of the handlers *)

Lemma well_formed_or_invalid (body : Body.t) :
  invalid_request body ∨
  ∃ mood ingredients,
    Body.mood body = Some mood ∧ Body.ingredients body = Some ingredients ∧
    mood ≠ ""%string ∧ ingredients ≠ [].
Proof.
  unfold invalid_request.
  destruct (Body.mood body) as [m|]; [|by left; left].
  destruct (Body.ingredients body) as [l|]; [|by left; right; right; left].
  destruct (decide (m = ""%string)) as [->|Hm]; [by left; right; left|].
  destruct l as [|i l]; [by left; right; right; right|].
  right. by exists m, (i :: l).
Qed.

Lemma invalid_not_well_formed (body : Body.t) (mood : string) (ingredients : list string) :
  Body.mood body = Some mood → Body.ingredients body = Some ingredients →
  mood ≠ ""%string → ingredients ≠ [] → ¬ invalid_request body.
Proof.
  intros Hm Hi Hm' Hi' [H|[H|[H|H]]]; rewrite ?Hm, ?Hi in H; congruence.
Qed.

Lemma get_recipes_invalid (body : Body.t) (w : World) :
  invalid_request body → get_recipes body w = (Return bad_request, w).
Proof.
  unfold invalid_request, get_recipes, try_catch.
  destruct (Body.mood body) as [m|], (Body.ingredients body) as [l|];
    intros [H|[H|[H|H]]]; try discriminate; try reflexivity;
    injection H as ->; try reflexivity.
  simpl. by rewrite orb_true_r.
Qed.

Section WellFormed.
Context (body : Body.t) (mood : string) (ingredients : list string).
Hypothesis Hmood : Body.mood body = Some mood.
Hypothesis Hingredients : Body.ingredients body = Some ingredients.
Hypothesis Hmood_ne : mood ≠ ""%string.
Hypothesis Hingredients_ne : ingredients ≠ [].

Lemma guard_passes : String.eqb mood "" || (length ingredients =? 0) = false.
Proof.
  apply orb_false_iff. split.
  - by apply String.eqb_neq.
  - destruct ingredients; [done|reflexivity].
Qed.

Lemma get_recipes_run (w : World) :
  connected w = true →
  get_recipes body w
  = (Return (Json (topRecipes (scoredRecipes ingredients
                                 (fired mood ingredients (collection w))))),
     mkWorld (collection w) true
             (issued w ++ sent mood ingredients (collection w))).
Proof.
  intros Hc.
  unfold get_recipes, try_catch. rewrite Hmood, Hingredients, guard_passes.
  unfold mbind, io_mbind, io_bind, find, fired, sent. rewrite Hc.
  destruct (answer (query mood ingredients) 10 (collection w)) as [|r rs];
    simpl; rewrite ?Hc; unfold io_ret; simpl; [|done].
  by rewrite <- app_assoc.
Qed.

Lemma get_recipes_unreachable (w : World) :
  connected w = false →
  get_recipes body w
  = (Return server_error,
     mkWorld (collection w) false (issued w ++ [query mood ingredients])).
Proof.
  intros Hc.
  unfold get_recipes, try_catch. rewrite Hmood, Hingredients, guard_passes.
  unfold mbind, io_mbind, io_bind, find. by rewrite Hc.
Qed.
End WellFormed.

(** A list is sent back only for a well-formed body and a reachable store. *)
Lemma get_recipes_json_inv (body : Body.t) (w : World) (l : list ScoredRecipe) :
  fst (get_recipes body w) = Return (Json l) →
  ∃ mood ingredients,
    Body.mood body = Some mood ∧ Body.ingredients body = Some ingredients ∧
    mood ≠ ""%string ∧ ingredients ≠ [] ∧ connected w = true ∧
    l = topRecipes (scoredRecipes ingredients (fired mood ingredients (collection w))).
Proof.
  intros H.
  destruct (well_formed_or_invalid body) as [Hinv|(m & ings & Hm & Hi & Hm' & Hi')].
  - rewrite get_recipes_invalid in H by done. discriminate H.
  - exists m, ings. repeat split; try done.
    + destruct (connected w) eqn:Hc; [done|].
      erewrite get_recipes_unreachable in H by done. discriminate H.
    + destruct (connected w) eqn:Hc.
      * erewrite get_recipes_run in H by done. simpl in H. congruence.
      * erewrite get_recipes_unreachable in H by done. discriminate H.
Qed.

Lemma seed_recipes_run (w : World) :
  connected w = true →
  seed_recipes w
  = (Return (Json (mkSeedReply "Database seeded successfully" 15)),
     mkWorld sampleRecipes true (issued w)).
Proof.
  destruct w as [docs up log]. simpl. intros ->. reflexivity.
Qed.

Lemma fired_elem_of (mood : string) (ingredients : list string)
    (docs : list Recipe.t) (r : Recipe.t) :
  r ∈ fired mood ingredients docs → r ∈ docs ∧ shares_ingredient ingredients r.
Proof.
  unfold fired.
  destruct (answer (query mood ingredients) 10 docs) as [|r0 rs] eqn:E.
  - intros [? ?%matches_broadQuery]%answer_elem_of. done.
  - rewrite <- E. intros [? [_ ?]%matches_query]%answer_elem_of. done.
Qed.

Lemma topRecipes_elem_of (scored : list ScoredRecipe) (s : ScoredRecipe) :
  s ∈ topRecipes scored → s ∈ scored.
Proof.
  unfold topRecipes, slice0. intros H.
  rewrite <- (sort_Permutation compareFn scored).
  eapply elem_of_sublist; [exact H | apply sublist_take].
Qed.

Lemma answer_fetches (q : Query) (n : nat) (P : Recipe.t → Prop) (docs : list Recipe.t) :
  0 < n → (∀ r, matches q r = true ↔ P r) → fetches n P docs (answer q n docs).
Proof.
  intros Hn HP. repeat split.
  - apply answer_length.
  - apply answer_sublist.
  - intros r [_ Hr]%answer_elem_of. by apply HP.
  - intros r Hr HPr Hlen. unfold answer in *.
    rewrite length_take in Hlen.
    rewrite take_ge by lia. apply filter_elem_of. split; [done | by apply HP].
  - intros Hnil r Hr HPr. apply HP in HPr.
    pose proof (proj1 (answer_nil_iff q n docs Hn) Hnil r Hr). congruence.
  - intros Hnone. apply answer_nil_iff; [done|]. intros r Hr.
    destruct (matches q r) eqn:E; [|done]. apply HP in E. by destruct (Hnone r Hr).
Qed.

(** * The claims *)

(** C1. For a request with a non-empty mood and non-empty ingredients the
    handler first sends the primary query, which fetches at most 10 recipes
    tagged with the lowercased mood that share an ingredient with the
    request. When the store answers, the handler sends the broad query, which
    fetches at most 10 recipes that share an ingredient with the request
    whatever their mood tags, exactly when the primary answer is empty; and
    the reply is computed from the primary answer when that is not empty and
    from the broad answer otherwise. *)
Theorem C1_primary_then_fallback
    (body : Body.t) (w : World) (mood : string) (ingredients : list string) :
  Body.mood body = Some mood →
  Body.ingredients body = Some ingredients →
  mood ≠ ""%string → ingredients ≠ [] →
  let primary := answer (query mood ingredients) 10 (collection w) in
  let fallback := answer (broadQuery ingredients) 10 (collection w) in
  let run := get_recipes body w in
  fetches 10 (mood_and_ingredient mood ingredients) (collection w) primary ∧
  fetches 10 (shares_ingredient ingredients) (collection w) fallback ∧
  (∃ later, issued (snd run) = issued w ++ query mood ingredients :: later) ∧
  (connected w = true →
   (primary ≠ [] →
      issued (snd run) = issued w ++ [query mood ingredients] ∧
      fst run = Return (Json (topRecipes (scoredRecipes ingredients primary)))) ∧
   (primary = [] →
      issued (snd run)
        = issued w ++ [query mood ingredients; broadQuery ingredients] ∧
      fst run = Return (Json (topRecipes (scoredRecipes ingredients fallback))))).
Proof.
  intros Hm Hi Hm' Hi' primary fallback run.
  split; [apply answer_fetches; [lia | apply matches_query]|].
  split; [apply answer_fetches; [lia | apply matches_broadQuery]|].
  subst run. split.
  - destruct (connected w) eqn:Hc.
    + rewrite (get_recipes_run body mood ingredients) by done.
      unfold sent. destruct (answer _ _ _); eexists; reflexivity.
    + rewrite (get_recipes_unreachable body mood ingredients) by done.
      eexists; reflexivity.
  - intros Hc. rewrite (get_recipes_run body mood ingredients) by done.
    unfold fired, sent. fold primary. fold fallback. simpl.
    split; intros Hp.
    + destruct primary; [done|]. done.
    + rewrite Hp. done.
Qed.

Lemma C1_witness :
  connected catalog_store = true ∧
  issued (snd (get_recipes excited_request catalog_store))
  = [query "excited" ["rice"; "mushroom"]%string;
     broadQuery ["rice"; "mushroom"]%string] ∧
  issued (snd (get_recipes stressed_request catalog_store))
  = [query "stressed" ["pasta"; "cheese"; "milk"; "butter"; "flour"]%string].
Proof.
  split; [reflexivity|]. split.
  - refine (proj1 (proj2 (proj2 (proj2 (proj2
      (C1_primary_then_fallback excited_request catalog_store
         "excited" ["rice"; "mushroom"]%string eq_refl eq_refl _ _)))
      eq_refl) eq_refl)); discriminate.
  - refine (proj1 (proj1 (proj2 (proj2 (proj2
      (C1_primary_then_fallback stressed_request catalog_store
         "stressed" ["pasta"; "cheese"; "milk"; "butter"; "flour"]%string
         eq_refl eq_refl _ _)))
      eq_refl) _)); discriminate.
Defined.

(** C2. Every recipe the fired query returned is scored: its entry of the
    scored list carries the recipe, [matchingIngredients] is the
    intersection of the recipe's ingredients with the requested ones, listed
    in the order of the recipe's own ingredient list, and [matchScore] is the
    number of its entries, which is the size of the intersection of the two
    ingredient sets when the recipe lists no ingredient twice; when the recipe
    holds at least one requested ingredient, [matchScore] is at least 1. *)
Theorem C2_score_is_intersection
    (ingredients : list string) (recipes : list Recipe.t) (i : nat) (r : Recipe.t) :
  recipes !! i = Some r →
  ∃ s, scoredRecipes ingredients recipes !! i = Some s ∧
       recipe s = r ∧
       matchingIngredients s = list_intersection (Recipe.ingredients r) ingredients ∧
       matchingIngredients s `sublist_of` Recipe.ingredients r ∧
       (∀ x, x ∈ matchingIngredients s ↔ x ∈ Recipe.ingredients r ∧ x ∈ ingredients) ∧
       matchScore s = length (matchingIngredients s) ∧
       (NoDup (Recipe.ingredients r) →
        matchScore s
        = size (list_to_set (Recipe.ingredients r) ∩ list_to_set ingredients
                : gset string)) ∧
       (shares_ingredient ingredients r → 1 ≤ matchScore s).
Proof.
  intros Hr. exists (scoreRecipe ingredients r).
  split; [by rewrite scoredRecipes_lookup, Hr|].
  split; [reflexivity|].
  split; [apply matchingIngredients_scoreRecipe|].
  split; [apply filter_sublist|].
  split.
  { intros x. rewrite matchingIngredients_scoreRecipe.
    apply list_elem_of_intersection. }
  split; [reflexivity|].
  split; [|apply scoreRecipe_positive].
  intros Hnd. rewrite matchScore_scoreRecipe, matchingIngredients_scoreRecipe.
  by apply intersection_size.
Qed.

Lemma C2_witness :
  ∃ r s,
    fired "excited" ["rice"; "mushroom"]%string sampleRecipes !! 0 = Some r ∧
    NoDup (Recipe.ingredients r) ∧
    scoredRecipes ["rice"; "mushroom"]%string
      (fired "excited" ["rice"; "mushroom"]%string sampleRecipes) !! 0 = Some s ∧
    recipe s = r ∧
    matchingIngredients s
    = list_intersection (Recipe.ingredients r) ["rice"; "mushroom"]%string ∧
    matchScore s
    = size (list_to_set (Recipe.ingredients r) ∩ list_to_set ["rice"; "mushroom"]%string
            : gset string) ∧
    1 ≤ matchScore s.
Proof.
  let first := eval vm_compute in
      (fired "excited" ["rice"; "mushroom"]%string sampleRecipes !! 0) in
  match first with Some ?r => exists r end.
  match goal with |- ∃ s, ?f !! 0 = Some ?r ∧ _ =>
    destruct (C2_score_is_intersection ["rice"; "mushroom"]%string
                (fired "excited" ["rice"; "mushroom"]%string sampleRecipes) 0 r
                eq_refl) as (s & H1 & H2 & H3 & _ & _ & _ & H7 & H8);
    assert (Hnd : NoDup (Recipe.ingredients r))
      by (apply (bool_decide_unpack _); vm_compute; exact I)
  end.
  exists s. split; [reflexivity|]. split; [exact Hnd|].
  split; [exact H1|]. split; [exact H2|]. split; [exact H3|].
  split; [exact (H7 Hnd)|].
  apply H8. exists "rice"%string. split; apply includes_elem_of; reflexivity.
Defined.

(** The score counts list entries: a recipe that lists a requested
    ingredient twice scores 2 for it. *)
Example score_counts_repetitions :
  matchScore (scoreRecipe ["rice"%string]
                (Recipe.mk "" [] ["rice"; "rice"]%string "" "" "" "")) = 2.
Proof. reflexivity. Qed.

(** ** Truncation *)

Lemma get_recipes_ignores_limit (body : Body.t) (lim : option nat) :
  get_recipes (Body.mk (Body.mood body) (Body.ingredients body) lim)
  = get_recipes body.
Proof. by destruct body. Qed.

(** C3, as stated, fails: the handler reads no limit. A request that asks
    for one recipe is answered with three. *)
Lemma C3_limit_is_not_read :
  ¬ (∀ (body : Body.t) (w : World) (l : list ScoredRecipe),
       fst (get_recipes body w) = Return (Json l) →
       length l ≤ default 3 (Body.limit body)).
Proof.
  intros H.
  specialize (H limited_request catalog_store _ eq_refl).
  vm_compute in H. lia.
Qed.

(** C3, amended. The handler takes no limit: the bound is the constant 3.
    Whenever a list is sent back it has at most 3 entries, and it is the
    first 3 entries of the sorted scored list; a [limit] key in the body
    changes nothing. *)
Theorem C3_at_most_three (body : Body.t) (w : World) (l : list ScoredRecipe) :
  fst (get_recipes body w) = Return (Json l) →
  length l ≤ 3 ∧
  (∃ mood ingredients,
     Body.mood body = Some mood ∧ Body.ingredients body = Some ingredients ∧
     l = take 3 (sort compareFn
                   (scoredRecipes ingredients
                      (fired mood ingredients (collection w))))) ∧
  (∀ lim, fst (get_recipes (Body.mk (Body.mood body) (Body.ingredients body) lim) w)
          = Return (Json l)).
Proof.
  intros H. split; [|split].
  - apply get_recipes_json_inv in H as (m & ings & _ & _ & _ & _ & _ & ->).
    unfold topRecipes, slice0. rewrite length_take. lia.
  - apply get_recipes_json_inv in H as (m & ings & Hm & Hi & _ & _ & _ & ->).
    by exists m, ings.
  - intros lim. by rewrite get_recipes_ignores_limit.
Qed.

Lemma C3_witness :
  fst (get_recipes limited_request catalog_store)
  = Return (Json (topRecipes
                    (scoredRecipes ["pasta"; "cheese"; "milk"; "butter"; "flour"]%string
                       (fired "stressed"
                          ["pasta"; "cheese"; "milk"; "butter"; "flour"]%string
                          sampleRecipes)))) ∧
  length (topRecipes
            (scoredRecipes ["pasta"; "cheese"; "milk"; "butter"; "flour"]%string
               (fired "stressed"
                  ["pasta"; "cheese"; "milk"; "butter"; "flour"]%string
                  sampleRecipes))) ≤ 3.
Proof.
  split; [reflexivity|].
  apply (C3_at_most_three limited_request catalog_store). reflexivity.
Defined.

(** ** Ranking *)

(** C4. The list sent back is sorted by falling [matchScore], and entries
    with one score stand in the order in which the store returned their
    recipes: for every score, the entries of the reply that carry it are an
    initial segment of the entries of the scored list that carry it. The
    sort itself moves no entry past another of the same score. *)
Theorem C4_sorted_and_stable
    (body : Body.t) (w : World) (mood : string) (ingredients : list string)
    (l : list ScoredRecipe) :
  Body.mood body = Some mood →
  Body.ingredients body = Some ingredients →
  fst (get_recipes body w) = Return (Json l) →
  let scored := scoredRecipes ingredients (fired mood ingredients (collection w)) in
  (∀ i a b, l !! i = Some a → l !! S i = Some b → matchScore a ≥ matchScore b) ∧
  (∀ k, with_score k l `prefix_of` with_score k scored) ∧
  (∀ k, with_score k (sort compareFn scored) = with_score k scored) ∧
  l `sublist_of` sort compareFn scored ∧
  sort compareFn scored ≡ₚ scored.
Proof.
  intros Hm Hi H scored.
  apply get_recipes_json_inv in H as (m & ings & Hm2 & Hi2 & _ & _ & _ & ->).
  assert (m = mood) as -> by congruence.
  assert (ings = ingredients) as -> by congruence.
  fold scored. unfold topRecipes, slice0.
  split; [|split; [|split; [|split]]].
  - intros i a b Ha Hb.
    change (desc a b).
    apply (StronglySorted_adjacent desc (take 3 (sort compareFn scored)) i);
      [|done..].
    apply StronglySorted_take, sort_desc.
  - intros k. rewrite <- (with_score_sort k scored). apply filter_take_prefix.
  - intros k. apply with_score_sort.
  - apply sublist_take.
  - apply sort_Permutation.
Qed.

Lemma C4_witness :
  fst (get_recipes excited_request catalog_store)
  = Return (Json (topRecipes
                    (scoredRecipes ["rice"; "mushroom"]%string
                       (fired "excited" ["rice"; "mushroom"]%string sampleRecipes)))) ∧
  with_score 2 (topRecipes
                  (scoredRecipes ["rice"; "mushroom"]%string
                     (fired "excited" ["rice"; "mushroom"]%string sampleRecipes)))
  `prefix_of`
  with_score 2 (scoredRecipes ["rice"; "mushroom"]%string
                  (fired "excited" ["rice"; "mushroom"]%string sampleRecipes)).
Proof.
  split; [reflexivity|].
  exact (proj1 (proj2 (C4_sorted_and_stable excited_request catalog_store
                         "excited" ["rice"; "mushroom"]%string _
                         eq_refl eq_refl eq_refl)) 2).
Defined.

(** ** Empty results and rejected requests *)

(** C5. When both the primary and the broad query return no recipe, as
    they do when no stored recipe holds a requested ingredient, the handler
    answers with status 200 and the empty list, not with an error. *)
Theorem C5_no_match_is_empty_success
    (body : Body.t) (w : World) (mood : string) (ingredients : list string) :
  Body.mood body = Some mood →
  Body.ingredients body = Some ingredients →
  mood ≠ ""%string → ingredients ≠ [] →
  connected w = true →
  (answer (query mood ingredients) 10 (collection w) = [] →
   answer (broadQuery ingredients) 10 (collection w) = [] →
   fst (get_recipes body w) = Return (Json [])) ∧
  ((∀ r, r ∈ collection w → ¬ shares_ingredient ingredients r) →
   answer (query mood ingredients) 10 (collection w) = [] ∧
   answer (broadQuery ingredients) 10 (collection w) = [] ∧
   fst (get_recipes body w) = Return (Json [])).
Proof.
  intros Hm Hi Hm' Hi' Hc.
  assert (Hboth :
    answer (query mood ingredients) 10 (collection w) = [] →
    answer (broadQuery ingredients) 10 (collection w) = [] →
    fst (get_recipes body w) = Return (Json [])).
  { intros Hp Hf. rewrite (get_recipes_run body mood ingredients) by done.
    unfold fired. by rewrite Hp, Hf. }
  split; [exact Hboth|].
  intros Hnone.
  assert (Hp : answer (query mood ingredients) 10 (collection w) = []).
  { apply answer_nil_iff; [lia|]. intros r Hr.
    destruct (matches (query mood ingredients) r) eqn:E; [|done].
    apply matches_query in E as [_ E]. by destruct (Hnone r Hr). }
  assert (Hf : answer (broadQuery ingredients) 10 (collection w) = []).
  { apply answer_nil_iff; [lia|]. intros r Hr.
    destruct (matches (broadQuery ingredients) r) eqn:E; [|done].
    apply matches_broadQuery in E. by destruct (Hnone r Hr). }
  auto.
Qed.

Lemma C5_witness :
  connected catalog_store = true ∧
  answer (query "happy" ["nonexistent-item"]%string) 10 sampleRecipes = [] ∧
  answer (broadQuery ["nonexistent-item"]%string) 10 sampleRecipes = [] ∧
  fst (get_recipes nonexistent_request catalog_store) = Return (Json []).
Proof.
  split; [reflexivity|]. split; [reflexivity|]. split; [reflexivity|].
  refine (proj1 (C5_no_match_is_empty_success nonexistent_request catalog_store
                   "happy" ["nonexistent-item"]%string
                   eq_refl eq_refl _ _ eq_refl) eq_refl eq_refl);
    discriminate.
Defined.

(** C6. A body whose mood is missing or empty, or whose ingredients are
    missing or empty, is answered with status 400 and no list, and the world
    is left as it was: no query reaches the store. A body with a non-empty
    mood and non-empty ingredients is never answered with status 400. *)
Theorem C6_invalid_request_rejected (body : Body.t) (w : World) :
  (invalid_request body →
   get_recipes body w = (Return (Status 400 "Mood and ingredients are required"), w)) ∧
  (∀ mood ingredients,
     Body.mood body = Some mood → Body.ingredients body = Some ingredients →
     mood ≠ ""%string → ingredients ≠ [] →
     ∀ e, fst (get_recipes body w) ≠ Return (Status 400 e)).
Proof.
  split.
  - apply get_recipes_invalid.
  - intros m ings Hm Hi Hm' Hi' e.
    destruct (connected w) eqn:Hc.
    + by rewrite (get_recipes_run body m ings).
    + by rewrite (get_recipes_unreachable body m ings).
Qed.

Lemma C6_witness :
  get_recipes (Body.mk (Some ""%string) (Some ["rice"%string]) None) catalog_store
  = (Return (Status 400 "Mood and ingredients are required"), catalog_store) ∧
  get_recipes (Body.mk None (Some ["rice"%string]) None) catalog_store
  = (Return (Status 400 "Mood and ingredients are required"), catalog_store) ∧
  get_recipes (Body.mk (Some "happy"%string) (Some []) None) catalog_store
  = (Return (Status 400 "Mood and ingredients are required"), catalog_store) ∧
  get_recipes (Body.mk (Some "happy"%string) None None) catalog_store
  = (Return (Status 400 "Mood and ingredients are required"), catalog_store) ∧
  ∀ e, fst (get_recipes nonexistent_request catalog_store) ≠ Return (Status 400 e).
Proof.
  split; [|split; [|split; [|split]]].
  - apply (C6_invalid_request_rejected
             (Body.mk (Some ""%string) (Some ["rice"%string]) None) catalog_store).
    right; left; reflexivity.
  - apply (C6_invalid_request_rejected
             (Body.mk None (Some ["rice"%string]) None) catalog_store).
    left; reflexivity.
  - apply (C6_invalid_request_rejected
             (Body.mk (Some "happy"%string) (Some []) None) catalog_store).
    right; right; right; reflexivity.
  - apply (C6_invalid_request_rejected
             (Body.mk (Some "happy"%string) None None) catalog_store).
    right; right; left; reflexivity.
  - refine (proj2 (C6_invalid_request_rejected nonexistent_request catalog_store)
                    "happy"%string ["nonexistent-item"%string] eq_refl eq_refl _ _);
      discriminate.
Defined.

(** ** Determinism *)

(** C7. The handler only reads the store: a run leaves the collection and
    the connection as they were, so a second run with the same body gets the
    same reply as the first; and two runs with one body against stores that
    hold the same records in the same order get the same reply, whatever was
    sent to either store before. *)
Theorem C7_deterministic (body : Body.t) (w : World) :
  let run := get_recipes body w in
  collection (snd run) = collection w ∧
  connected (snd run) = connected w ∧
  fst (get_recipes body (snd run)) = fst run ∧
  (∀ body' w',
     Body.mood body' = Body.mood body →
     Body.ingredients body' = Body.ingredients body →
     collection w' = collection w → connected w' = connected w →
     fst (get_recipes body' w') = fst run).
Proof.
  assert (Hdet : ∀ w1 w2, collection w1 = collection w2 →
                          connected w1 = connected w2 →
                          fst (get_recipes body w1) = fst (get_recipes body w2)).
  { intros w1 w2 Hcol Hcon.
    destruct (well_formed_or_invalid body) as [Hinv|(m & ings & Hm & Hi & Hm' & Hi')].
    - by rewrite !get_recipes_invalid.
    - destruct (connected w2) eqn:Hc.
      + rewrite !(get_recipes_run body m ings) by done. simpl. by rewrite Hcol.
      + by rewrite !(get_recipes_unreachable body m ings). }
  assert (Hro : collection (snd (get_recipes body w)) = collection w ∧
                connected (snd (get_recipes body w)) = connected w).
  { destruct (well_formed_or_invalid body) as [Hinv|(m & ings & Hm & Hi & Hm' & Hi')].
    - by rewrite get_recipes_invalid.
    - destruct (connected w) eqn:Hc.
      + by rewrite (get_recipes_run body m ings).
      + by rewrite (get_recipes_unreachable body m ings). }
  intros run. destruct Hro as [Hcol Hcon].
  split; [done|]. split; [done|]. split.
  - by apply Hdet.
  - intros body' w' Hm Hi ? ?.
    rewrite <- (get_recipes_ignores_limit body' (Body.limit body)), Hm, Hi.
    rewrite (get_recipes_ignores_limit body). by apply Hdet.
Qed.

Lemma C7_witness :
  fst (get_recipes stressed_request
         (snd (get_recipes stressed_request catalog_store)))
  = fst (get_recipes stressed_request catalog_store).
Proof.
  exact (proj1 (proj2 (proj2 (C7_deterministic stressed_request catalog_store)))).
Defined.

(** ** The seeded catalog *)

Lemma seeded_collection (w : World) :
  connected w = true → seeded w = mkWorld sampleRecipes true (issued w).
Proof. intros Hc. unfold seeded. by rewrite seed_recipes_run. Qed.

(** C8. After the seeding endpoint has run against a reachable store, the
    request for mood "stressed" with pasta, cheese, milk, butter and flour is
    answered from the primary query alone; the first record the primary query
    returns is "Comfort Mac and Cheese", which is tagged "stressed" and all of
    whose ingredients are requested; and "Comfort Mac and Cheese" is the first
    entry of the reply, with [matchScore] 5. *)
Theorem C8_stressed_example (w : World) :
  connected w = true →
  let ingredients := ["pasta"; "cheese"; "milk"; "butter"; "flour"]%string in
  let store := seeded w in
  let run := get_recipes stressed_request store in
  collection store = sampleRecipes ∧
  (∃ r, answer (query "stressed" ingredients) 10 (collection store) !! 0 = Some r ∧
        Recipe.name r = "Comfort Mac and Cheese"%string ∧
        "stressed"%string ∈ Recipe.moodTags r ∧
        ∀ i, i ∈ Recipe.ingredients r → i ∈ ingredients) ∧
  issued (snd run) = issued w ++ [query "stressed" ingredients] ∧
  ∃ s rest, fst run = Return (Json (s :: rest)) ∧
            Recipe.name (recipe s) = "Comfort Mac and Cheese"%string ∧
            matchScore s = 5 ∧
            matchingIngredients s = ingredients.
Proof.
  intros Hc ingredients store run.
  subst run store. rewrite (seeded_collection w Hc).
  rewrite (get_recipes_run stressed_request "stressed" ingredients);
    [|reflexivity|reflexivity|discriminate|discriminate|reflexivity].
  cbn [collection issued fst snd].
  split; [reflexivity|]. split; [|split].
  - let first := eval vm_compute in
        (answer (query "stressed" ingredients) 10 sampleRecipes !! 0) in
    match first with Some ?r => exists r end.
    split; [reflexivity|]. split; [reflexivity|].
    split.
    + apply includes_elem_of. reflexivity.
    + intros i Hi. apply includes_elem_of in Hi.
      cbn [Recipe.ingredients includes] in Hi.
      rewrite !orb_true_iff, !String.eqb_eq in Hi.
      apply includes_elem_of.
      repeat destruct Hi as [Hi|Hi]; subst; try discriminate; reflexivity.
  - reflexivity.
  - eexists _, _. split; [vm_compute; reflexivity|]. repeat split.
Qed.

Lemma C8_witness :
  connected catalog_store = true ∧
  ∃ s rest,
    fst (get_recipes stressed_request (seeded catalog_store))
    = Return (Json (s :: rest)) ∧
    Recipe.name (recipe s) = "Comfort Mac and Cheese"%string ∧
    matchScore s = 5.
Proof.
  split; [reflexivity|].
  destruct (C8_stressed_example catalog_store eq_refl)
    as (_ & _ & _ & s & rest & H1 & H2 & H3 & _).
  by exists s, rest.
Defined.

(** ** No entry without a match *)

(** C9. Every entry of a list the handler sends back has [matchScore] at
    least 1, since either query returns only recipes that hold a requested
    ingredient. *)
Theorem C9_scores_positive
    (body : Body.t) (w : World) (l : list ScoredRecipe) (s : ScoredRecipe) :
  fst (get_recipes body w) = Return (Json l) →
  s ∈ l →
  1 ≤ matchScore s.
Proof.
  intros H Hs.
  apply get_recipes_json_inv in H as (m & ings & _ & _ & _ & _ & _ & ->).
  apply topRecipes_elem_of, elem_of_scoredRecipes in Hs as (r & -> & Hr).
  apply fired_elem_of in Hr as [_ Hr]. by apply scoreRecipe_positive.
Qed.

Lemma C9_witness :
  ∃ l s, fst (get_recipes excited_request catalog_store) = Return (Json l) ∧
         l !! 0 = Some s ∧
         1 ≤ matchScore s.
Proof.
  eexists _, _. split; [reflexivity|]. split; [reflexivity|].
  refine (C9_scores_positive excited_request catalog_store _ _ eq_refl _).
  apply (list_elem_of_lookup_2 _ 0). reflexivity.
Defined.

(** ** Letter case *)

Lemma lower_ascii_idemp (c : ascii) : lower_ascii (lower_ascii c) = lower_ascii c.
Proof. destruct c as [[] [] [] [] [] [] [] []]; reflexivity. Qed.

Lemma toLowerCase_idemp (s : string) : toLowerCase (toLowerCase s) = toLowerCase s.
Proof.
  induction s as [|c s IH]; simpl; [done|]. by rewrite lower_ascii_idemp, IH.
Qed.

Lemma toLowerCase_empty (s : string) : toLowerCase s = ""%string ↔ s = ""%string.
Proof. destruct s; simpl; split; congruence. Qed.

(** The reply is the same for a mood and for its lowercase form. *)
Lemma get_recipes_mood_case (mood : string) (ingredients : option (list string))
    (lim : option nat) (w : World) :
  fst (get_recipes (Body.mk (Some (toLowerCase mood)) ingredients lim) w)
  = fst (get_recipes (Body.mk (Some mood) ingredients lim) w).
Proof.
  set (b1 := Body.mk (Some (toLowerCase mood)) ingredients lim).
  set (b2 := Body.mk (Some mood) ingredients lim).
  destruct (well_formed_or_invalid b2) as [Hinv|(m & ings & Hm & Hi & Hm' & Hi')].
  - rewrite (get_recipes_invalid b2) by done.
    rewrite (get_recipes_invalid b1); [done|].
    destruct Hinv as [H|[H|[H|H]]]; simpl in H.
    + discriminate.
    + injection H as ->. right; left. reflexivity.
    + right; right; left. exact H.
    + right; right; right. exact H.
  - simpl in Hm, Hi. injection Hm as <-. subst ingredients.
    assert (Hl : toLowerCase mood ≠ ""%string) by by rewrite toLowerCase_empty.
    destruct (connected w) eqn:Hc.
    + rewrite (get_recipes_run b1 (toLowerCase mood) ings) by done.
      rewrite (get_recipes_run b2 mood ings) by done.
      unfold fired, query. by rewrite toLowerCase_idemp.
    + rewrite (get_recipes_unreachable b1 (toLowerCase mood) ings) by done.
      by rewrite (get_recipes_unreachable b2 mood ings).
Qed.

Lemma includes_cons_absent (q : string) (ingredients l : list string) :
  q ∉ l →
  List.filter (fun x => includes (q :: ingredients) x) l
  = List.filter (fun x => includes ingredients x) l ∧
  existsb (includes (q :: ingredients)) l = existsb (includes ingredients) l.
Proof.
  induction l as [|x l IH]; intros Hq; [done|].
  apply not_elem_of_cons in Hq as [Hx Hq]. destruct (IH Hq) as [IH1 IH2].
  cbn [List.filter existsb]. rewrite IH1, IH2. cbn [includes].
  assert (String.eqb q x = false) as -> by by apply String.eqb_neq.
  done.
Qed.

(** C10. Only the mood is normalised. The primary query compares the
    lowercased mood with the mood tags, and the reply to a mood and to its
    lowercase form is the same; the requested ingredients are compared with
    the stored ones by equality of strings, in both queries and in the
    scoring. So a requested ingredient [q] that equals no ingredient of a
    recipe, be it that it differs from one only in letter case, matches
    nothing: with or without [q] in the request, both queries decide the same
    and the recipe gets the same [matchScore] and [matchingIngredients], and
    a stored ingredient that equals [q] up to letter case is matching only
    when the rest of the request names it. *)
Theorem C10_only_mood_normalised
    (mood : string) (ingredients : list string) (q : string) (r : Recipe.t)
    (w : World) (lim : option nat) :
  q ∉ Recipe.ingredients r →
  (matches (query mood ingredients) r = true ↔
   toLowerCase mood ∈ Recipe.moodTags r ∧
   ∃ i, i ∈ Recipe.ingredients r ∧ i ∈ ingredients) ∧
  fst (get_recipes (Body.mk (Some (toLowerCase mood)) (Some ingredients) lim) w)
  = fst (get_recipes (Body.mk (Some mood) (Some ingredients) lim) w) ∧
  (matches (broadQuery ingredients) r = true ↔
   ∃ i, i ∈ Recipe.ingredients r ∧ i ∈ ingredients) ∧
  (∀ x, x ∈ matchingIngredients (scoreRecipe ingredients r) ↔
        x ∈ Recipe.ingredients r ∧ x ∈ ingredients) ∧
  matches (query mood (q :: ingredients)) r = matches (query mood ingredients) r ∧
  matches (broadQuery (q :: ingredients)) r = matches (broadQuery ingredients) r ∧
  scoreRecipe (q :: ingredients) r = scoreRecipe ingredients r ∧
  (∀ s, s ∈ Recipe.ingredients r → toLowerCase s = toLowerCase q →
        s ∈ matchingIngredients (scoreRecipe (q :: ingredients) r) →
        s ∈ ingredients).
Proof.
  intros Hq.
  destruct (includes_cons_absent q ingredients (Recipe.ingredients r) Hq) as [Hf He].
  assert (Hscore : scoreRecipe (q :: ingredients) r = scoreRecipe ingredients r).
  { unfold scoreRecipe. by rewrite Hf. }
  split; [apply matches_query|].
  split; [apply get_recipes_mood_case|].
  split; [apply matches_broadQuery|].
  split.
  { intros x. rewrite matchingIngredients_scoreRecipe.
    apply list_elem_of_intersection. }
  split; [unfold query; cbn [matches forallb field]; by rewrite He|].
  split; [unfold broadQuery; cbn [matches field]; by rewrite He|].
  split; [exact Hscore|].
  intros s _ _. rewrite Hscore, matchingIngredients_scoreRecipe.
  by intros [_ ?]%list_elem_of_intersection.
Qed.

Section CaseExamples.
Local Open Scope string_scope.

Example mood_is_lowercased : toLowerCase "StReSSed" = "stressed".
Proof. reflexivity. Qed.

Example mac_and_cheese_seeded : sampleRecipes !! 0 = Some mac_and_cheese.
Proof. reflexivity. Qed.

Lemma C10_witness :
  ("Pasta" ∉ Recipe.ingredients mac_and_cheese) ∧
  toLowerCase "Pasta" = "pasta" ∧
  matches (broadQuery ["Pasta"]) mac_and_cheese = false ∧
  matchScore (scoreRecipe ["Pasta"; "cheese"] mac_and_cheese) = 1 ∧
  matchingIngredients (scoreRecipe ["Pasta"; "cheese"] mac_and_cheese) = ["cheese"].
Proof.
  assert (H : ("Pasta" ∉ Recipe.ingredients mac_and_cheese)).
  { apply includes_not_elem_of. reflexivity. }
  destruct (C10_only_mood_normalised "stressed" ["cheese"] "Pasta" mac_and_cheese
              catalog_store None H)
    as (_ & _ & _ & _ & _ & _ & Hs & _).
  destruct (C10_only_mood_normalised "stressed" [] "Pasta" mac_and_cheese
              catalog_store None H)
    as (_ & _ & _ & _ & _ & Hb & _).
  split; [exact H|]. split; [reflexivity|].
  split; [rewrite Hb; reflexivity|].
  rewrite Hs. split; reflexivity.
Defined.
End CaseExamples.


(** * Further properties of the server *)

(** ** Helpers *)

Lemma recipe_scoredRecipes (ingredients : list string) (recipes : list Recipe.t) :
  recipe <$> scoredRecipes ingredients recipes = recipes.
Proof.
  unfold scoredRecipes. induction recipes as [|r rs IH]; [done|].
  simpl. f_equal. exact IH.
Qed.

Lemma fired_cases (mood : string) (ingredients : list string) (docs : list Recipe.t) :
  (answer (query mood ingredients) 10 docs ≠ [] ∧
   fired mood ingredients docs = answer (query mood ingredients) 10 docs) ∨
  (answer (query mood ingredients) 10 docs = [] ∧
   fired mood ingredients docs = answer (broadQuery ingredients) 10 docs).
Proof.
  unfold fired. destruct (answer (query mood ingredients) 10 docs) eqn:E.
  - right. done.
  - left. done.
Qed.

Lemma fired_sublist (mood : string) (ingredients : list string) (docs : list Recipe.t) :
  fired mood ingredients docs `sublist_of` docs.
Proof.
  destruct (fired_cases mood ingredients docs) as [[_ ->]|[_ ->]];
    apply answer_sublist.
Qed.

Lemma fired_length (mood : string) (ingredients : list string) (docs : list Recipe.t) :
  length (fired mood ingredients docs) ≤ 10.
Proof.
  destruct (fired_cases mood ingredients docs) as [[_ ->]|[_ ->]];
    apply answer_length.
Qed.

Lemma no_shared_answers_nil (mood : string) (ingredients : list string)
    (docs : list Recipe.t) :
  (∀ r, r ∈ docs → ¬ shares_ingredient ingredients r) →
  answer (query mood ingredients) 10 docs = [] ∧
  answer (broadQuery ingredients) 10 docs = [].
Proof.
  intros Hnone. split; apply answer_nil_iff; try lia; intros r Hr.
  - destruct (matches (query mood ingredients) r) eqn:E; [|done].
    apply matches_query in E as [_ E]. by destruct (Hnone r Hr).
  - destruct (matches (broadQuery ingredients) r) eqn:E; [|done].
    apply matches_broadQuery in E. by destruct (Hnone r Hr).
Qed.

Lemma fired_nil_iff (mood : string) (ingredients : list string) (docs : list Recipe.t) :
  fired mood ingredients docs = [] ↔
  ∀ r, r ∈ docs → ¬ shares_ingredient ingredients r.
Proof.
  split.
  - intros Hnil r Hr Hs.
    destruct (fired_cases mood ingredients docs) as [[Hp Hf]|[Hp Hf]].
    + congruence.
    + rewrite Hf in Hnil.
      pose proof (proj1 (answer_nil_iff (broadQuery ingredients) 10 docs
                           ltac:(lia)) Hnil r Hr) as Hm.
      apply matches_broadQuery in Hs. congruence.
  - intros Hnone.
    destruct (no_shared_answers_nil mood ingredients docs Hnone) as [Hp Hf].
    unfold fired. by rewrite Hp, Hf.
Qed.

Lemma scoreRecipe_zero (ingredients : list string) (r : Recipe.t) :
  matchScore (scoreRecipe ingredients r) = 0 ↔ ¬ shares_ingredient ingredients r.
Proof.
  rewrite matchScore_scoreRecipe, matchingIngredients_scoreRecipe.
  split.
  - intros H0 (i & Hr & Hi).
    assert (Hin : i ∈ list_intersection (Recipe.ingredients r) ingredients)
      by by apply list_elem_of_intersection.
    destruct (list_intersection (Recipe.ingredients r) ingredients);
      [inversion Hin | discriminate].
  - intros Hno.
    destruct (list_intersection (Recipe.ingredients r) ingredients) as [|i l] eqn:E;
      [done|].
    destruct Hno. exists i.
    apply list_elem_of_intersection. rewrite E. left.
Qed.

Lemma includes_ext (l1 l2 : list string) :
  (∀ x, x ∈ l1 ↔ x ∈ l2) → ∀ x, includes l1 x = includes l2 x.
Proof.
  intros H x. destruct (includes l2 x) eqn:E.
  - apply includes_elem_of, H, includes_elem_of, E.
  - apply includes_not_elem_of. rewrite H. by apply includes_not_elem_of.
Qed.

Lemma existsb_ext_eq {A} (f g : A → bool) (l : list A) :
  (∀ x, f x = g x) → existsb f l = existsb g l.
Proof. intros H. induction l as [|x l IH]; simpl; [done|]. by rewrite H, IH. Qed.

Lemma same_ingredients_same_answers (mood : string) (l1 l2 : list string)
    (docs : list Recipe.t) :
  (∀ x, x ∈ l1 ↔ x ∈ l2) →
  fired mood l1 docs = fired mood l2 docs ∧
  ∀ rs, scoredRecipes l1 rs = scoredRecipes l2 rs.
Proof.
  intros H. pose proof (includes_ext l1 l2 H) as Hinc.
  assert (Hb : ∀ r, matches (broadQuery l1) r = matches (broadQuery l2) r).
  { intros r. unfold broadQuery. cbn [matches field]. by apply existsb_ext_eq. }
  assert (Hq : ∀ r, matches (query mood l1) r = matches (query mood l2) r).
  { intros r. unfold query. cbn [matches forallb field].
    by rewrite (existsb_ext_eq (includes l1) (includes l2)). }
  split.
  - unfold fired, answer.
    by rewrite (List.filter_ext _ _ Hq), (List.filter_ext _ _ Hb).
  - intros rs. unfold scoredRecipes. apply map_ext. intros r.
    unfold scoreRecipe. by rewrite (List.filter_ext _ _ Hinc).
Qed.

Lemma sorted_head_max (scored : list ScoredRecipe) (s x : ScoredRecipe) :
  sort compareFn scored !! 0 = Some s → x ∈ scored → matchScore x ≤ matchScore s.
Proof.
  intros Hs Hx. pose proof (sort_desc scored) as Hsorted.
  rewrite <- (sort_Permutation compareFn scored) in Hx.
  destruct (sort compareFn scored) as [|y rest]; [discriminate|].
  injection Hs as ->. apply StronglySorted_cons in Hsorted as [Hall _].
  apply elem_of_cons in Hx as [->|Hx]; [done|].
  rewrite Forall_forall in Hall. by apply Hall.
Qed.

(** ** The matching endpoint *)

(** When the store cannot be reached, a well-formed request is answered
    with status 500; the primary query is the only one sent, and the
    collection is untouched. *)
Theorem store_down_gives_500
    (body : Body.t) (w : World) (mood : string) (ingredients : list string) :
  Body.mood body = Some mood →
  Body.ingredients body = Some ingredients →
  mood ≠ ""%string → ingredients ≠ [] →
  connected w = false →
  fst (get_recipes body w) = Return (Status 500 "Failed to fetch recipes") ∧
  issued (snd (get_recipes body w)) = issued w ++ [query mood ingredients] ∧
  collection (snd (get_recipes body w)) = collection w.
Proof.
  intros Hm Hi Hm' Hi' Hc.
  by rewrite (get_recipes_unreachable body mood ingredients).
Qed.

Lemma store_down_gives_500_witness :
  fst (get_recipes stressed_request (mkWorld sampleRecipes false []))
  = Return (Status 500 "Failed to fetch recipes").
Proof.
  refine (proj1 (store_down_gives_500 stressed_request
                   (mkWorld sampleRecipes false []) "stressed"
                   ["pasta"; "cheese"; "milk"; "butter"; "flour"]%string
                   eq_refl eq_refl _ _ eq_refl)); discriminate.
Defined.

(** When some stored recipe is tagged with the lowercased mood and shares
    an ingredient with the request, every entry of the reply is tagged with
    the lowercased mood: the broad query does not dilute a mood match. *)
Theorem mood_match_is_kept
    (body : Body.t) (w : World) (mood : string) (ingredients : list string)
    (l : list ScoredRecipe) :
  Body.mood body = Some mood →
  Body.ingredients body = Some ingredients →
  fst (get_recipes body w) = Return (Json l) →
  (∃ r, r ∈ collection w ∧ mood_and_ingredient mood ingredients r) →
  ∀ s, s ∈ l → toLowerCase mood ∈ Recipe.moodTags (recipe s).
Proof.
  intros Hm Hi H (r0 & Hr0 & HP) s Hs.
  apply get_recipes_json_inv in H as (m & ings & Hm2 & Hi2 & _ & _ & _ & ->).
  assert (m = mood) as -> by congruence.
  assert (ings = ingredients) as -> by congruence.
  apply topRecipes_elem_of, elem_of_scoredRecipes in Hs as (r & -> & Hr).
  simpl.
  destruct (fired_cases mood ingredients (collection w)) as [[_ Hf]|[Hp _]].
  - rewrite Hf in Hr. apply answer_elem_of in Hr as [_ Hr].
    by apply matches_query in Hr as [? _].
  - pose proof (proj1 (answer_nil_iff (query mood ingredients) 10 (collection w)
                         ltac:(lia)) Hp r0 Hr0) as Hno.
    apply matches_query in HP. congruence.
Qed.

Lemma mood_match_is_kept_witness :
  ∃ l s, fst (get_recipes stressed_request catalog_store) = Return (Json l) ∧
         l !! 2 = Some s ∧
         toLowerCase "stressed" ∈ Recipe.moodTags (recipe s).
Proof.
  eexists _, _. split; [reflexivity|]. split; [reflexivity|].
  refine (mood_match_is_kept stressed_request catalog_store "stressed"
            ["pasta"; "cheese"; "milk"; "butter"; "flour"]%string _
            eq_refl eq_refl eq_refl _ _ _).
  - exists mac_and_cheese. split.
    + apply (list_elem_of_lookup_2 _ 0). reflexivity.
    + apply matches_query. reflexivity.
  - apply (list_elem_of_lookup_2 _ 2). reflexivity.
Defined.

(** The recipes of a reply are records of the collection, each taken at
    most as often as the collection holds it: a collection without repeated
    records never yields a reply with a repeated recipe. *)
Theorem reply_recipes_from_collection
    (body : Body.t) (w : World) (l : list ScoredRecipe) :
  fst (get_recipes body w) = Return (Json l) →
  recipe <$> l ⊆+ collection w ∧
  (NoDup (collection w) → NoDup (recipe <$> l)).
Proof.
  intros H.
  apply get_recipes_json_inv in H as (m & ings & _ & _ & _ & _ & _ & ->).
  assert (Hsub : recipe <$> topRecipes (scoredRecipes ings (fired m ings (collection w)))
                 ⊆+ collection w).
  { unfold topRecipes, slice0. rewrite fmap_take.
    etrans; [apply sublist_submseteq, sublist_take|].
    rewrite (sort_Permutation compareFn), recipe_scoredRecipes.
    apply sublist_submseteq, fired_sublist. }
  split; [exact Hsub|].
  intros Hnd. apply submseteq_Permutation in Hsub as [k Hk].
  rewrite Hk in Hnd. by apply NoDup_app in Hnd as [? _].
Qed.

Lemma reply_recipes_from_collection_witness :
  ∃ l, fst (get_recipes excited_request catalog_store) = Return (Json l) ∧
       recipe <$> l ⊆+ sampleRecipes.
Proof.
  eexists. split; [reflexivity|].
  exact (proj1 (reply_recipes_from_collection excited_request catalog_store _ eq_refl)).
Defined.

(** The first entry of a reply scores at least as high as every recipe the
    fired query returned. When that query returned fewer than 10 recipes,
    the first entry scores at least as high as every stored recipe tagged
    with the lowercased mood, and, when the reply comes from the broad query,
    as every stored recipe. *)
Theorem first_entry_is_best
    (body : Body.t) (w : World) (mood : string) (ingredients : list string)
    (l : list ScoredRecipe) (s : ScoredRecipe) :
  Body.mood body = Some mood →
  Body.ingredients body = Some ingredients →
  fst (get_recipes body w) = Return (Json l) →
  l !! 0 = Some s →
  (∀ r, r ∈ fired mood ingredients (collection w) →
        matchScore (scoreRecipe ingredients r) ≤ matchScore s) ∧
  (length (fired mood ingredients (collection w)) < 10 →
   ∀ r, r ∈ collection w →
        toLowerCase mood ∈ Recipe.moodTags r ∨
        answer (query mood ingredients) 10 (collection w) = [] →
        matchScore (scoreRecipe ingredients r) ≤ matchScore s).
Proof.
  intros Hm Hi H Hs.
  apply get_recipes_json_inv in H as (m & ings & Hm2 & Hi2 & _ & _ & _ & ->).
  assert (m = mood) as -> by congruence.
  assert (ings = ingredients) as -> by congruence.
  unfold topRecipes, slice0 in Hs. rewrite lookup_take_lt in Hs by lia.
  assert (Hfired : ∀ r, r ∈ fired mood ingredients (collection w) →
                        matchScore (scoreRecipe ingredients r) ≤ matchScore s).
  { intros r Hr. eapply sorted_head_max; [exact Hs|].
    apply elem_of_scoredRecipes. by exists r. }
  split; [exact Hfired|].
  intros Hlen r Hr Hcase.
  destruct (decide (matchScore (scoreRecipe ingredients r) = 0)) as [->|Hpos]; [lia|].
  assert (Hshare : shares_ingredient ingredients r).
  { destruct (matches (broadQuery ingredients) r) eqn:E.
    - by apply matches_broadQuery.
    - destruct Hpos. apply scoreRecipe_zero. intros Hsh.
      apply matches_broadQuery in Hsh. congruence. }
  apply Hfired.
  destruct (fired_cases mood ingredients (collection w)) as [[Hp Hf]|[Hp Hf]];
    rewrite Hf in Hlen |- *.
  - destruct Hcase as [Htag|Hnil]; [|done].
    apply (answer_fetches (query mood ingredients) 10
             (mood_and_ingredient mood ingredients) (collection w));
      [lia | apply matches_query | done | done | done].
  - apply (answer_fetches (broadQuery ingredients) 10
             (shares_ingredient ingredients) (collection w));
      [lia | apply matches_broadQuery | done | done | done].
Qed.

Lemma first_entry_is_best_witness :
  ∃ l s, fst (get_recipes excited_request catalog_store) = Return (Json l) ∧
         l !! 0 = Some s ∧
         ∀ r, r ∈ sampleRecipes →
              matchScore (scoreRecipe ["rice"; "mushroom"]%string r) ≤ matchScore s.
Proof.
  eexists _, _. split; [reflexivity|]. split; [reflexivity|].
  intros r Hr.
  refine (proj2 (first_entry_is_best excited_request catalog_store "excited"
                   ["rice"; "mushroom"]%string _ _
                   eq_refl eq_refl eq_refl eq_refl) _ r Hr _).
  - vm_compute. lia.
  - right. reflexivity.
Defined.

(** A recipe the fired query returned but the reply leaves out scores no
    higher than any entry of the reply. *)
Theorem left_out_is_not_better
    (body : Body.t) (w : World) (mood : string) (ingredients : list string)
    (l : list ScoredRecipe) (r : Recipe.t) (s : ScoredRecipe) :
  Body.mood body = Some mood →
  Body.ingredients body = Some ingredients →
  fst (get_recipes body w) = Return (Json l) →
  r ∈ fired mood ingredients (collection w) →
  scoreRecipe ingredients r ∉ l →
  s ∈ l →
  matchScore (scoreRecipe ingredients r) ≤ matchScore s.
Proof.
  intros Hm Hi H Hr Hout Hs.
  apply get_recipes_json_inv in H as (m & ings & Hm2 & Hi2 & _ & _ & _ & ->).
  assert (m = mood) as -> by congruence.
  assert (ings = ingredients) as -> by congruence.
  unfold topRecipes, slice0 in *.
  set (scored := scoredRecipes ingredients (fired mood ingredients (collection w))) in *.
  assert (Hin : scoreRecipe ingredients r ∈ sort compareFn scored).
  { rewrite (sort_Permutation compareFn). apply elem_of_scoredRecipes. by exists r. }
  pose proof (sort_desc scored) as Hsorted.
  rewrite <- (take_drop 3 (sort compareFn scored)) in Hin, Hsorted.
  apply elem_of_app in Hin as [Hin|Hin]; [done|].
  exact (StronglySorted_app_1_elem_of desc _ _ _ _ Hsorted Hs Hin).
Qed.

(** A reply has 3 entries, or as many as the fired query returned when
    these are fewer; it is empty exactly when no stored recipe holds a
    requested ingredient. *)
Theorem reply_length_and_emptiness
    (body : Body.t) (w : World) (mood : string) (ingredients : list string)
    (l : list ScoredRecipe) :
  Body.mood body = Some mood →
  Body.ingredients body = Some ingredients →
  fst (get_recipes body w) = Return (Json l) →
  length l = min 3 (length (fired mood ingredients (collection w))) ∧
  (l = [] ↔ ∀ r, r ∈ collection w → ¬ shares_ingredient ingredients r).
Proof.
  intros Hm Hi H.
  apply get_recipes_json_inv in H as (m & ings & Hm2 & Hi2 & _ & _ & _ & ->).
  assert (m = mood) as -> by congruence.
  assert (ings = ingredients) as -> by congruence.
  assert (Hlen : length (topRecipes (scoredRecipes ingredients
                                       (fired mood ingredients (collection w))))
                 = min 3 (length (fired mood ingredients (collection w)))).
  { unfold topRecipes, slice0, scoredRecipes.
    by rewrite length_take, sort_length, length_fmap. }
  split; [exact Hlen|].
  rewrite <- (fired_nil_iff mood). split.
  - intros Hnil. rewrite Hnil in Hlen at 1.
    destruct (fired mood ingredients (collection w)); [done | simpl in Hlen; lia].
  - intros Hnil. apply nil_length_inv. by rewrite Hlen, Hnil.
Qed.

Lemma reply_length_and_emptiness_witness :
  ∃ l, fst (get_recipes stressed_request catalog_store) = Return (Json l) ∧
       length l = min 3 (length (fired "stressed"
                                   ["pasta"; "cheese"; "milk"; "butter"; "flour"]%string
                                   sampleRecipes)).
Proof.
  eexists. split; [reflexivity|].
  exact (proj1 (reply_length_and_emptiness stressed_request catalog_store "stressed"
                  ["pasta"; "cheese"; "milk"; "butter"; "flour"]%string _
                  eq_refl eq_refl eq_refl)).
Defined.

(** The reply depends on the requested ingredients as a set: two requests
    with one mood whose ingredient arrays hold the same strings, in whatever
    order and however often, get the same reply from one store. *)
Theorem reply_depends_on_ingredient_set
    (mood : option string) (l1 l2 : list string) (lim1 lim2 : option nat) (w : World) :
  (∀ x, x ∈ l1 ↔ x ∈ l2) →
  fst (get_recipes (Body.mk mood (Some l1) lim1) w)
  = fst (get_recipes (Body.mk mood (Some l2) lim2) w).
Proof.
  intros H.
  set (b1 := Body.mk mood (Some l1) lim1). set (b2 := Body.mk mood (Some l2) lim2).
  assert (Hnil : l1 = [] ↔ l2 = []).
  { split; intros ->.
    - destruct l2 as [|x l2]; [done|].
      pose proof (proj2 (H x) ltac:(left)) as Hx. inversion Hx.
    - destruct l1 as [|x l1]; [done|].
      pose proof (proj1 (H x) ltac:(left)) as Hx. inversion Hx. }
  destruct (well_formed_or_invalid b1) as [Hinv|(m & ings & Hm & Hi & Hm' & Hi')].
  - rewrite (get_recipes_invalid b1) by done.
    rewrite (get_recipes_invalid b2); [done|].
    destruct Hinv as [Hx|[Hx|[Hx|Hx]]]; simpl in Hx.
    + by left.
    + by right; left.
    + discriminate.
    + right; right; right. simpl. injection Hx as Hx. f_equal. by apply Hnil.
  - simpl in Hm, Hi. injection Hi as <-. subst mood.
    assert (Hl2 : l2 ≠ []) by (intros E; by apply Hi', Hnil).
    destruct (same_ingredients_same_answers m l1 l2 (collection w) H) as [Hf Hs].
    destruct (connected w) eqn:Hc.
    + rewrite (get_recipes_run b1 m l1), (get_recipes_run b2 m l2) by done.
      simpl. by rewrite Hf, Hs.
    + by rewrite (get_recipes_unreachable b1 m l1),
                 (get_recipes_unreachable b2 m l2).
Qed.

Lemma reply_depends_on_ingredient_set_witness :
  fst (get_recipes (Body.mk (Some "excited"%string)
                            (Some ["mushroom"; "rice"; "mushroom"]%string) None)
                   catalog_store)
  = fst (get_recipes excited_request catalog_store).
Proof.
  apply (reply_depends_on_ingredient_set (Some "excited"%string)
           ["mushroom"; "rice"; "mushroom"]%string ["rice"; "mushroom"]%string).
  intros x. rewrite <- !includes_elem_of. cbn [includes].
  destruct (String.eqb "mushroom" x), (String.eqb "rice" x); reflexivity.
Defined.

(** The score of a recipe is at most the number of its ingredients, with
    equality exactly when all of them are requested; it is 0 exactly when
    none is; and requesting more ingredients never lowers it. *)
Theorem score_bounds (ingredients more : list string) (r : Recipe.t) :
  matchScore (scoreRecipe ingredients r) ≤ length (Recipe.ingredients r) ∧
  (matchScore (scoreRecipe ingredients r) = length (Recipe.ingredients r) ↔
   ∀ i, i ∈ Recipe.ingredients r → i ∈ ingredients) ∧
  (matchScore (scoreRecipe ingredients r) = 0 ↔
   ∀ i, i ∈ Recipe.ingredients r → i ∉ ingredients) ∧
  matchScore (scoreRecipe ingredients r)
  ≤ matchScore (scoreRecipe (ingredients ++ more) r).
Proof.
  unfold scoreRecipe. simpl.
  generalize (Recipe.ingredients r). intros l.
  split; [|split; [|split]].
  - induction l as [|x l IH]; simpl; [done|].
    destruct (includes ingredients x); simpl; lia.
  - induction l as [|x l IH]; simpl.
    + split; [intros _ i Hi; inversion Hi | done].
    + assert (Hle : length (List.filter (fun i => includes ingredients i) l) ≤ length l).
      { clear. induction l as [|y l IH]; simpl; [done|].
        destruct (includes ingredients y); simpl; lia. }
      destruct (includes ingredients x) eqn:E; simpl.
      * split.
        -- intros Heq i Hi. apply elem_of_cons in Hi as [->|Hi].
           ++ by apply includes_elem_of.
           ++ apply IH; [lia | done].
        -- intros Hall. f_equal. apply IH. intros i Hi. apply Hall. by right.
      * split; [lia|]. intros Hall. apply includes_not_elem_of in E.
        destruct E. apply Hall. left.
  - induction l as [|x l IH]; simpl.
    + split; [intros _ i Hi; inversion Hi | done].
    + destruct (includes ingredients x) eqn:E; simpl.
      * split; [discriminate|]. intros Hall. apply includes_elem_of in E.
        destruct (Hall x); [left | done].
      * rewrite IH. apply includes_not_elem_of in E. split.
        -- intros Hall i Hi. apply elem_of_cons in Hi as [->|Hi]; auto.
        -- intros Hall i Hi. apply Hall. by right.
  - induction l as [|x l IH]; simpl; [done|].
    destruct (includes ingredients x) eqn:E.
    + assert (includes (ingredients ++ more) x = true) as ->.
      { apply includes_elem_of, elem_of_app. left. by apply includes_elem_of. }
      simpl. lia.
    + destruct (includes (ingredients ++ more) x); simpl; lia.
Qed.

Lemma left_out_is_not_better_witness :
  ∃ l r s, fst (get_recipes excited_request catalog_store) = Return (Json l) ∧
           sampleRecipes !! 13 = Some r ∧
           r ∈ fired "excited" ["rice"; "mushroom"]%string sampleRecipes ∧
           (scoreRecipe ["rice"; "mushroom"]%string r ∉ l) ∧
           l !! 2 = Some s ∧
           matchScore (scoreRecipe ["rice"; "mushroom"]%string r) ≤ matchScore s.
Proof.
  eexists _, _, _. split; [reflexivity|]. split; [reflexivity|].
  assert (Hr : ∀ r, sampleRecipes !! 13 = Some r →
                    r ∈ fired "excited" ["rice"; "mushroom"]%string sampleRecipes).
  { intros r [= <-]. apply (list_elem_of_lookup_2 _ 3). reflexivity. }
  assert (Hout : ∀ r l, sampleRecipes !! 13 = Some r →
                        fst (get_recipes excited_request catalog_store)
                        = Return (Json l) →
                        scoreRecipe ["rice"; "mushroom"]%string r ∉ l).
  { intros r l [= <-] [= <-] Hin. vm_compute in Hin.
    repeat (apply elem_of_cons in Hin as [Hin|Hin]; [discriminate Hin|]).
    inversion Hin. }
  split; [exact (Hr _ eq_refl)|]. split; [exact (Hout _ _ eq_refl eq_refl)|].
  split; [reflexivity|].
  refine (left_out_is_not_better excited_request catalog_store "excited"
            ["rice"; "mushroom"]%string _ _ _
            eq_refl eq_refl eq_refl (Hr _ eq_refl) (Hout _ _ eq_refl eq_refl) _).
  apply (list_elem_of_lookup_2 _ 2). reflexivity.
Defined.

(** ** Seeding and listing *)

Lemma matches_empty_filter (r : Recipe.t) : matches (q_and []) r = true.
Proof. reflexivity. Qed.

Lemma filter_all {A} (f : A → bool) (l : list A) :
  (∀ x, f x = true) → List.filter f l = l.
Proof.
  intros H. induction l as [|x l IH]; simpl; [done|]. by rewrite H, IH.
Qed.

(** Against a reachable store the seeding endpoint replaces whatever the
    collection held by the catalog and reports the number of records the
    collection then holds; seeding again changes nothing. *)
Theorem seed_recipes_replaces_collection (w : World) :
  connected w = true →
  let w1 := snd (seed_recipes w) in
  collection w1 = sampleRecipes ∧
  (∃ reply, fst (seed_recipes w) = Return (Json reply) ∧
            count reply = length (collection w1)) ∧
  issued w1 = issued w ∧
  snd (seed_recipes w1) = w1.
Proof.
  intros Hc w1. subst w1.
  rewrite (seed_recipes_run w Hc). cbn [snd fst collection issued].
  split; [done|]. split; [by eexists|]. split; [done|].
  by rewrite seed_recipes_run.
Qed.

Lemma seed_recipes_replaces_collection_witness :
  collection (snd (seed_recipes (mkWorld [mac_and_cheese; mac_and_cheese] true [])))
  = sampleRecipes.
Proof.
  exact (proj1 (seed_recipes_replaces_collection
                  (mkWorld [mac_and_cheese; mac_and_cheese] true []) eq_refl)).
Defined.

(** Against an unreachable store the seeding endpoint answers with status
    500 and leaves the world as it was. *)
Theorem seed_recipes_store_down (w : World) :
  connected w = false →
  seed_recipes w = (Return (Status 500 "Failed to seed database"), w).
Proof.
  intros Hc. unfold seed_recipes, try_catch, mbind, io_mbind, io_bind, deleteMany.
  by rewrite Hc.
Qed.

Lemma seed_recipes_store_down_witness :
  seed_recipes (mkWorld [mac_and_cheese] false [])
  = (Return (Status 500 "Failed to seed database"), mkWorld [mac_and_cheese] false []).
Proof. exact (seed_recipes_store_down (mkWorld [mac_and_cheese] false []) eq_refl). Defined.

(** GET /api/recipes sends back the whole collection in document order,
    however many records it holds, and leaves it as it was; against an
    unreachable store it answers with status 500. Right after seeding it
    sends back the catalog. *)
Theorem get_all_recipes_returns_collection (w : World) :
  (connected w = true →
   fst (get_all_recipes w) = Return (Json (collection w)) ∧
   fst (get_all_recipes (seeded w)) = Return (Json sampleRecipes)) ∧
  (connected w = false →
   fst (get_all_recipes w) = Return (Status 500 "Failed to fetch recipes")) ∧
  collection (snd (get_all_recipes w)) = collection w ∧
  connected (snd (get_all_recipes w)) = connected w.
Proof.
  assert (Hup : ∀ w0, connected w0 = true →
                      fst (get_all_recipes w0) = Return (Json (collection w0))).
  { intros w0 Hc.
    unfold get_all_recipes, try_catch, mbind, io_mbind, io_bind, find_all.
    rewrite Hc. simpl. by rewrite (filter_all _ _ matches_empty_filter). }
  split; [|split].
  - intros Hc. split; [by apply Hup|].
    rewrite (seeded_collection w Hc). by rewrite Hup.
  - intros Hc.
    unfold get_all_recipes, try_catch, mbind, io_mbind, io_bind, find_all.
    by rewrite Hc.
  - unfold get_all_recipes, try_catch, mbind, io_mbind, io_bind, find_all.
    by destruct (connected w).
Qed.

Lemma get_all_recipes_returns_collection_witness :
  fst (get_all_recipes (seeded catalog_store)) = Return (Json sampleRecipes) ∧
  fst (get_all_recipes (mkWorld sampleRecipes false []))
  = Return (Status 500 "Failed to fetch recipes").
Proof.
  split.
  - exact (proj2 (proj1 (get_all_recipes_returns_collection catalog_store) eq_refl)).
  - exact (proj1 (proj2 (get_all_recipes_returns_collection
                           (mkWorld sampleRecipes false []))) eq_refl).
Defined.

(** The catalog keeps the invariants of the data model. *)
Lemma sampleRecipes_well_kept : Forall well_kept sampleRecipes.
Proof.
  unfold sampleRecipes.
  repeat (apply Forall_cons; split;
          [split; [discriminate|]; split; [discriminate|];
           split; [apply (bool_decide_unpack _); vm_compute; exact I|];
           split; [apply (bool_decide_unpack _); vm_compute; exact I|];
           apply (bool_decide_unpack _); vm_compute; exact I
          |]).
  apply Forall_nil_2.
Qed.

(** Against a seeded store, whatever the request, the score of every entry
    of the reply is the size of the intersection of the set of the recipe's
    ingredients with the set of requested ingredients, and the recipe is one
    of the catalog. *)
Theorem seeded_scores_are_set_sizes
    (body : Body.t) (w : World) (ingredients : list string)
    (l : list ScoredRecipe) (s : ScoredRecipe) :
  connected w = true →
  Body.ingredients body = Some ingredients →
  fst (get_recipes body (seeded w)) = Return (Json l) →
  s ∈ l →
  recipe s ∈ sampleRecipes ∧
  matchScore s
  = size (list_to_set (Recipe.ingredients (recipe s)) ∩ list_to_set ingredients
          : gset string).
Proof.
  intros Hc Hi H Hs. rewrite (seeded_collection w Hc) in H.
  apply get_recipes_json_inv in H as (m & ings & _ & Hi2 & _ & _ & _ & ->).
  assert (ings = ingredients) as -> by congruence.
  apply topRecipes_elem_of, elem_of_scoredRecipes in Hs as (r & -> & Hr).
  apply fired_elem_of in Hr as [Hr _]. cbn [collection] in Hr.
  split; [exact Hr|].
  pose proof sampleRecipes_well_kept as Hall. rewrite Forall_forall in Hall.
  destruct (Hall r Hr) as (_ & _ & _ & Hnd & _).
  rewrite matchScore_scoreRecipe, matchingIngredients_scoreRecipe.
  by apply intersection_size.
Qed.

Lemma seeded_scores_are_set_sizes_witness :
  ∃ l s, fst (get_recipes stressed_request (seeded catalog_store)) = Return (Json l) ∧
         l !! 1 = Some s ∧
         matchScore s
         = size (list_to_set (Recipe.ingredients (recipe s))
                 ∩ list_to_set ["pasta"; "cheese"; "milk"; "butter"; "flour"]%string
                 : gset string).
Proof.
  eexists _, _. split; [reflexivity|]. split; [reflexivity|].
  refine (proj2 (seeded_scores_are_set_sizes stressed_request catalog_store
                   ["pasta"; "cheese"; "milk"; "butter"; "flour"]%string _ _
                   eq_refl eq_refl eq_refl _)).
  apply (list_elem_of_lookup_2 _ 1). reflexivity.
Defined.

(** * Properties of [seed.js] *)

(** [seedDatabase] against a reachable store leaves the catalog in the
    collection, whatever it held, and the process exits with code 0; the
    collection is then the one the seeding endpoint of the server leaves.
    Against an unreachable store the process exits with code 1 and the world
    is as it was. *)
Theorem seedDatabase_exit_code (w : World) :
  (connected w = true →
   fst (seedDatabase w) = Return 0 ∧
   collection (snd (seedDatabase w)) = seedRecipes ∧
   snd (seedDatabase w) = snd (seed_recipes w)) ∧
  (connected w = false → seedDatabase w = (Return 1, w)).
Proof.
  split; intros Hc.
  - rewrite (seed_recipes_run w Hc). destruct w as [docs up log].
    simpl in Hc. subst up. done.
  - unfold seedDatabase, try_catch, mbind, io_mbind, io_bind, deleteMany.
    by rewrite Hc.
Qed.

Lemma seedDatabase_exit_code_witness :
  fst (seedDatabase (mkWorld [mac_and_cheese] true [])) = Return 0 ∧
  seedDatabase (mkWorld [mac_and_cheese] false [])
  = (Return 1, mkWorld [mac_and_cheese] false []).
Proof.
  split.
  - exact (proj1 (proj1 (seedDatabase_exit_code (mkWorld [mac_and_cheese] true []))
                    eq_refl)).
  - exact (proj2 (seedDatabase_exit_code (mkWorld [mac_and_cheese] false [])) eq_refl).
Defined.

(** ** The summary by mood *)

Lemma count_mood_lookup (moodCounts : gmap string nat) (tag mood : string) :
  count_mood moodCounts tag !! mood
  = counted (moodCounts !! mood) (occurrences mood [tag]).
Proof.
  unfold count_mood, occurrences. simpl.
  destruct (String.eqb mood tag) eqn:E; simpl.
  - apply String.eqb_eq in E as ->. by rewrite lookup_insert_eq.
  - apply String.eqb_neq in E. by rewrite lookup_insert_ne.
Qed.

Lemma counted_counted (old : option nat) (n1 n2 : nat) :
  counted (counted old n1) n2 = counted old (n1 + n2).
Proof.
  destruct n1, n2; simpl; rewrite ?Nat.add_0_r; try done.
  f_equal. lia.
Qed.

Lemma foldl_count_mood_lookup (tags : list string) (moodCounts : gmap string nat)
    (mood : string) :
  foldl count_mood moodCounts tags !! mood
  = counted (moodCounts !! mood) (occurrences mood tags).
Proof.
  revert moodCounts. induction tags as [|t tags IH]; intros moodCounts; [done|].
  cbn [foldl]. rewrite IH, count_mood_lookup, counted_counted. f_equal.
  unfold occurrences. simpl. by destruct (String.eqb mood t).
Qed.

Lemma count_moods_lookup (recipes : list Recipe.t) (mood : string) :
  count_moods recipes !! mood = counted None (tagged mood recipes).
Proof.
  unfold count_moods. rewrite <- (lookup_empty (M := gmap string) (A := nat) mood).
  generalize (∅ : gmap string nat). induction recipes as [|r rs IH]; intros acc.
  - done.
  - cbn [foldl tagged]. by rewrite IH, foldl_count_mood_lookup, counted_counted.
Qed.

Lemma occurrences_NoDup (mood : string) (tags : list string) :
  NoDup tags → occurrences mood tags = if includes tags mood then 1 else 0.
Proof.
  unfold occurrences. induction 1 as [|t tags Ht Hnd IH]; [done|].
  simpl. rewrite (String.eqb_sym t mood).
  destruct (String.eqb mood t) eqn:E; simpl.
  - apply String.eqb_eq in E as ->. rewrite IH.
    apply includes_not_elem_of in Ht. by rewrite Ht.
  - exact IH.
Qed.

Lemma tagged_NoDup (mood : string) (recipes : list Recipe.t) :
  Forall (fun r => NoDup (Recipe.moodTags r)) recipes →
  tagged mood recipes
  = length (List.filter (fun r => includes (Recipe.moodTags r) mood) recipes).
Proof.
  induction 1 as [|r rs Hr _ IH]; [done|].
  simpl. rewrite IH, (occurrences_NoDup mood _ Hr).
  by destruct (includes (Recipe.moodTags r) mood).
Qed.

(** The summary [seedDatabase] prints counts, for every mood, the recipes
    of the catalog that carry it as a tag; a mood that tags no recipe has no
    line. *)
Theorem moodCounts_counts_recipes (mood : string) :
  moodCounts !! mood
  = match length (List.filter (fun r => includes (Recipe.moodTags r) mood)
                    seedRecipes) with
    | 0 => None
    | S n => Some (S n)
    end.
Proof.
  unfold moodCounts. rewrite count_moods_lookup, tagged_NoDup.
  - by destruct (length _).
  - eapply Forall_impl; [apply sampleRecipes_well_kept|].
    by intros r (_ & _ & ? & _).
Qed.

Example moodCounts_happy : moodCounts !! "happy"%string = Some 10.
Proof. unfold moodCounts. rewrite count_moods_lookup. reflexivity. Qed.

(** For any array of recipes the two loops count, for every mood, the
    places where it stands as a tag, and the keys are the moods that tag
    some recipe. *)
Lemma count_moods_counts_tags (recipes : list Recipe.t) (mood : string) :
  default 0 (count_moods recipes !! mood) = tagged mood recipes ∧
  (is_Some (count_moods recipes !! mood) ↔
   ∃ r, r ∈ recipes ∧ mood ∈ Recipe.moodTags r) ∧
  (∀ n, count_moods recipes !! mood = Some n → 0 < n).
Proof.
  rewrite count_moods_lookup.
  assert (Hpos : 0 < tagged mood recipes ↔
                 ∃ r, r ∈ recipes ∧ mood ∈ Recipe.moodTags r).
  { induction recipes as [|r rs IH]; simpl.
    - split; [lia|]. intros (r & Hr & _). inversion Hr.
    - assert (Hocc : 0 < occurrences mood (Recipe.moodTags r) ↔
                     mood ∈ Recipe.moodTags r).
      { unfold occurrences. generalize (Recipe.moodTags r). intros tags.
        induction tags as [|t tags IHt]; simpl.
        - split; [lia | intros H; inversion H].
        - rewrite elem_of_cons. destruct (String.eqb mood t) eqn:E; simpl.
          + apply String.eqb_eq in E. split; [by left | lia].
          + apply String.eqb_neq in E. rewrite IHt.
            split; [by right | by intros [?|?]]. }
      split.
      + intros Hsum.
        destruct (decide (0 < occurrences mood (Recipe.moodTags r))) as [Ho|Ho].
        * exists r. split; [left | by apply Hocc].
        * destruct (proj1 IH ltac:(lia)) as (r' & Hr' & Hm).
          exists r'. split; [by right | done].
      + intros (r' & Hr' & Hm). apply elem_of_cons in Hr' as [->|Hr'].
        * apply Hocc in Hm. lia.
        * assert (0 < tagged mood rs) by (apply IH; eauto). lia. }
  split; [|split].
  - by destruct (tagged mood recipes).
  - rewrite <- Hpos. destruct (tagged mood recipes); simpl.
    + split; [intros [? ?]; discriminate | lia].
    + split; [lia | eauto].
  - intros n. destruct (tagged mood recipes); simpl; [discriminate|].
    intros [= <-]. lia.
Qed.

(** * Properties of the client *)

(** ** Choosing ingredients *)

Lemma filter_neq_elem_of (x y : string) (l : list string) :
  y ∈ List.filter (fun item => negb (String.eqb item x)) l ↔ y ∈ l ∧ y ≠ x.
Proof.
  rewrite filter_elem_of, negb_true_iff, String.eqb_neq. done.
Qed.

Lemma filter_neq_absent (x : string) (l : list string) :
  x ∉ l → List.filter (fun item => negb (String.eqb item x)) l = l.
Proof.
  induction l as [|y l IH]; intros Hx; [done|].
  apply not_elem_of_cons in Hx as [Hxy Hx]. simpl.
  assert (String.eqb y x = false) as -> by (apply String.eqb_neq; congruence).
  simpl. by rewrite IH.
Qed.

Lemma filter_NoDup {A} (f : A → bool) (l : list A) :
  NoDup l → NoDup (List.filter f l).
Proof. intros H. eapply sublist_NoDup; [exact H | apply filter_sublist]. Qed.

Lemma filter_neq_length (x : string) (l : list string) :
  NoDup l → x ∈ l →
  S (length (List.filter (fun item => negb (String.eqb item x)) l)) = length l.
Proof.
  induction 1 as [|y l Hy Hnd IH]; intros Hx; [inversion Hx|].
  simpl. destruct (String.eqb y x) eqn:E; simpl.
  - apply String.eqb_eq in E as ->. by rewrite filter_neq_absent.
  - apply String.eqb_neq in E. apply elem_of_cons in Hx as [->|Hx]; [done|].
    by rewrite IH.
Qed.

(** A tap on an ingredient flips whether it is selected and changes
    nothing else: every other ingredient stays selected or not as it was,
    and the other fields of the state keep their values. *)
Theorem toggle_flips_one (ingredient other : string) (a : App.t) :
  let a' := handleIngredientToggle ingredient a in
  (ingredient ∈ App.selectedIngredients a' ↔ ingredient ∉ App.selectedIngredients a) ∧
  (other ≠ ingredient →
   (other ∈ App.selectedIngredients a' ↔ other ∈ App.selectedIngredients a)) ∧
  App.selectedMood a' = App.selectedMood a ∧
  App.customMood a' = App.customMood a ∧
  App.currentScreen a' = App.currentScreen a ∧
  App.recipes a' = App.recipes a.
Proof.
  cbn zeta. split; [|split; [|done]].
  - cbn [handleIngredientToggle setSelectedIngredients App.selectedIngredients].
    unfold toggle.
    destruct (includes (App.selectedIngredients a) ingredient) eqn:E.
    + apply includes_elem_of in E. rewrite filter_neq_elem_of. tauto.
    + apply includes_not_elem_of in E.
      rewrite elem_of_app, list_elem_of_singleton. tauto.
  - intros Hne.
    cbn [handleIngredientToggle setSelectedIngredients App.selectedIngredients].
    unfold toggle.
    destruct (includes (App.selectedIngredients a) ingredient) eqn:E.
    + rewrite filter_neq_elem_of. tauto.
    + rewrite elem_of_app, list_elem_of_singleton. tauto.
Qed.

(** A selection without repetitions stays so under taps, and a tap changes
    its length by one: down when the ingredient was selected, up when it was
    not. *)
Theorem toggle_keeps_NoDup (ingredient : string) (a : App.t) :
  NoDup (App.selectedIngredients a) →
  let a' := handleIngredientToggle ingredient a in
  NoDup (App.selectedIngredients a') ∧
  (ingredient ∈ App.selectedIngredients a →
   S (length (App.selectedIngredients a')) = length (App.selectedIngredients a)) ∧
  (ingredient ∉ App.selectedIngredients a →
   length (App.selectedIngredients a') = S (length (App.selectedIngredients a))).
Proof.
  intros Hnd. simpl. unfold toggle.
  destruct (includes (App.selectedIngredients a) ingredient) eqn:E.
  - apply includes_elem_of in E. split; [by apply filter_NoDup|].
    split; [intros _; by apply filter_neq_length | done].
  - apply includes_not_elem_of in E. split.
    + apply NoDup_app. split; [done|]. split; [|apply NoDup_singleton].
      intros y Hy ->%list_elem_of_singleton. done.
    + split; [done|]. intros _. rewrite length_app. simpl. lia.
Qed.

Lemma toggle_keeps_NoDup_witness :
  NoDup (App.selectedIngredients
           (handleIngredientToggle "rice"
              (setSelectedIngredients ["rice"; "milk"]%string initial_app))) ∧
  NoDup (App.selectedIngredients
           (handleIngredientToggle "rice" initial_app)).
Proof.
  split.
  - refine (proj1 (toggle_keeps_NoDup "rice"
                     (setSelectedIngredients ["rice"; "milk"]%string initial_app) _)).
    apply (bool_decide_unpack _). vm_compute. exact I.
  - refine (proj1 (toggle_keeps_NoDup "rice" initial_app _)). apply NoDup_nil_2.
Defined.

(** Two taps on an ingredient that was not selected restore the
    selection. Two taps on a selected one leave it selected but move it to
    the end, after the removal of every copy of it: the selection holds the
    same ingredients, in another order. *)
Theorem toggle_twice (ingredient : string) (a : App.t) :
  let l := App.selectedIngredients a in
  let l'' := App.selectedIngredients
               (handleIngredientToggle ingredient
                  (handleIngredientToggle ingredient a)) in
  (ingredient ∉ l → l'' = l) ∧
  (ingredient ∈ l →
   l'' = List.filter (fun item => negb (String.eqb item ingredient)) l ++ [ingredient]) ∧
  (∀ x, x ∈ l'' ↔ x ∈ l) ∧
  (NoDup l → l'' ≡ₚ l).
Proof.
  simpl. set (l := App.selectedIngredients a).
  assert (Hnot : ingredient ∉ l → toggle ingredient (toggle ingredient l) = l).
  { intros Hx. unfold toggle at 2.
    rewrite (proj2 (includes_not_elem_of l ingredient) Hx).
    unfold toggle.
    assert (includes (l ++ [ingredient]) ingredient = true) as ->.
    { apply includes_elem_of, elem_of_app. right. by apply list_elem_of_singleton. }
    rewrite List.filter_app, (filter_neq_absent ingredient l Hx). simpl.
    rewrite String.eqb_refl. simpl. by rewrite app_nil_r. }
  assert (Hin : ingredient ∈ l →
                toggle ingredient (toggle ingredient l)
                = List.filter (fun item => negb (String.eqb item ingredient)) l
                  ++ [ingredient]).
  { intros Hx. unfold toggle at 2.
    rewrite (proj2 (includes_elem_of l ingredient) Hx).
    unfold toggle.
    assert (includes (List.filter (fun item => negb (String.eqb item ingredient)) l)
                     ingredient = false) as ->; [|done].
    apply includes_not_elem_of. rewrite filter_neq_elem_of. by intros [_ ?]. }
  assert (Hmem : ∀ x, x ∈ toggle ingredient (toggle ingredient l) ↔ x ∈ l).
  { intros x. destruct (decide (ingredient ∈ l)) as [Hx|Hx].
    - rewrite (Hin Hx), elem_of_app, filter_neq_elem_of, list_elem_of_singleton.
      destruct (decide (x = ingredient)) as [->|]; tauto.
    - by rewrite (Hnot Hx). }
  split; [exact Hnot|]. split; [exact Hin|]. split; [exact Hmem|].
  intros Hnd. apply NoDup_Permutation; [|done|exact Hmem].
  destruct (decide (ingredient ∈ l)) as [Hx|Hx].
  - rewrite (Hin Hx). apply NoDup_app. split; [by apply filter_NoDup|].
    split; [|apply NoDup_singleton].
    intros y Hy ->%list_elem_of_singleton.
    apply filter_neq_elem_of in Hy. by destruct Hy as [_ ?].
  - by rewrite (Hnot Hx).
Qed.

Lemma toggle_twice_witness :
  App.selectedIngredients
    (handleIngredientToggle "rice"
       (handleIngredientToggle "rice"
          (setSelectedIngredients ["rice"; "milk"]%string initial_app)))
  = ["milk"; "rice"]%string.
Proof.
  refine (eq_trans
            (proj1 (proj2 (toggle_twice "rice"
                             (setSelectedIngredients ["rice"; "milk"]%string
                                initial_app))) _) eq_refl).
  apply includes_elem_of. reflexivity.
Defined.

(** ** Sending the request *)

Lemma complete_guards (a : App.t) :
  complete a →
  String.eqb (App.selectedMood a) "" && String.eqb (App.customMood a) "" = false ∧
  (length (App.selectedIngredients a) =? 0) = false ∧
  finalMood a ≠ ""%string.
Proof.
  intros [Hm Hi]. unfold finalMood.
  destruct (String.eqb (App.customMood a) "") eqn:Ec;
    destruct (String.eqb (App.selectedMood a) "") eqn:Es; simpl;
    rewrite ?String.eqb_eq, ?String.eqb_neq in *.
  all: try (exfalso; by destruct Hm).
  all: split; [done|].
  all: split; [by destruct (App.selectedIngredients a)|done].
Qed.

Lemma incomplete_guards (a : App.t) :
  ¬ complete a →
  String.eqb (App.selectedMood a) "" && String.eqb (App.customMood a) "" = true ∨
  (String.eqb (App.selectedMood a) "" && String.eqb (App.customMood a) "" = false ∧
   (length (App.selectedIngredients a) =? 0) = true).
Proof.
  intros Hn. unfold complete in Hn.
  destruct (String.eqb (App.selectedMood a) "") eqn:Es;
    destruct (String.eqb (App.customMood a) "") eqn:Ec; simpl; auto;
    rewrite ?String.eqb_eq, ?String.eqb_neq in *; right; (split; [done|]);
    destruct (App.selectedIngredients a); try done; destruct Hn; split; auto.
Qed.

Lemma posted_well_formed (a : App.t) :
  complete a →
  Body.mood (posted a) = Some (finalMood a) ∧
  Body.ingredients (posted a) = Some (App.selectedIngredients a) ∧
  finalMood a ≠ ""%string ∧ App.selectedIngredients a ≠ [].
Proof.
  intros Hc. destruct (complete_guards a Hc) as (_ & _ & Hf).
  destruct Hc as [_ Hi]. done.
Qed.

(** Whatever the client posts passes the validation of the server: a
    request of the client is never answered with status 400. The mood it
    posts is the typed one when there is one, and the selected one
    otherwise. *)
Theorem client_request_never_rejected (a : App.t) (w : World) :
  complete a →
  ¬ invalid_request (posted a) ∧
  (∀ e, fst (get_recipes (posted a) w) ≠ Return (Status 400 e)) ∧
  (App.customMood a ≠ ""%string → Body.mood (posted a) = Some (App.customMood a)) ∧
  (App.customMood a = ""%string → Body.mood (posted a) = Some (App.selectedMood a)).
Proof.
  intros Hc. destruct (posted_well_formed a Hc) as (Hm & Hi & Hm' & Hi').
  split; [by eapply invalid_not_well_formed|].
  split.
  - intros e. destruct (connected w) eqn:E.
    + by rewrite (get_recipes_run (posted a) _ _ Hm Hi Hm' Hi' w E).
    + by rewrite (get_recipes_unreachable (posted a) _ _ Hm Hi Hm' Hi' w E).
  - unfold posted, finalMood. simpl. split; intros Hcm.
    + apply String.eqb_neq in Hcm. by rewrite Hcm.
    + by rewrite Hcm.
Qed.

Lemma client_request_never_rejected_witness :
  complete typed_mood_app ∧
  Body.mood (posted typed_mood_app) = Some "Stressed"%string ∧
  ∀ e, fst (get_recipes (posted typed_mood_app) catalog_store) ≠ Return (Status 400 e).
Proof.
  assert (Hc : complete typed_mood_app).
  { split; [left; discriminate | discriminate]. }
  split; [exact Hc|].
  destruct (client_request_never_rejected typed_mood_app catalog_store Hc)
    as (_ & H400 & Hcustom & _).
  split; [apply Hcustom; discriminate | exact H400].
Defined.

(** When no mood is selected or typed, or no ingredient is selected,
    [submitRequest] sends nothing and changes nothing: the server and the
    store are as before, the state and the storage of the client are as
    before, and one alert is shown. *)
Theorem submit_incomplete_sends_nothing (online : bool) (d : Device) (w : World) :
  ¬ complete (app d) →
  snd (submitRequest online d w) = w ∧
  app (fst (submitRequest online d w)) = app d ∧
  storage (fst (submitRequest online d w)) = storage d ∧
  ∃ text, alerts (fst (submitRequest online d w)) = alerts d ++ [("Error"%string, text)].
Proof.
  intros Hn. unfold submitRequest.
  destruct (incomplete_guards (app d) Hn) as [->|[-> ->]]; simpl; eauto 10.
Qed.

Lemma submit_incomplete_sends_nothing_witness :
  ¬ complete no_ingredient_app ∧
  snd (submitRequest true (sample_device no_ingredient_app) catalog_store)
  = catalog_store.
Proof.
  assert (Hn : ¬ complete no_ingredient_app) by (intros [_ H]; by apply H).
  split; [exact Hn|].
  exact (proj1 (submit_incomplete_sends_nothing true (sample_device no_ingredient_app)
                  catalog_store Hn)).
Defined.

(** A complete request that reaches the server, with the store reachable:
    the client keeps the list the server sent, moves to the results screen,
    stops loading, saves the selected mood and ingredients, and shows no
    alert. The results screen shows the "no recipes" message exactly when no
    stored recipe holds a selected ingredient, and otherwise one card for
    each entry of the list, at most 3, in the order of the list. *)
Theorem submit_shows_reply (d : Device) (w : World) :
  complete (app d) →
  connected w = true →
  let d' := fst (submitRequest true d w) in
  let selected := App.selectedIngredients (app d) in
  ∃ l, fst (get_recipes (posted (app d)) w) = Return (Json l) ∧
       App.recipes (app d') = data_list l ∧
       App.currentScreen (app d') = screen_results ∧
       App.loading (app d') = false ∧
       alerts d' = alerts d ∧
       storage d' = Storage.mk (Some (App.selectedMood (app d))) (Some selected) ∧
       snd (submitRequest true d w) = snd (get_recipes (posted (app d)) w) ∧
       (ResultsScreen (App.recipes (app d')) = NoRecipes ↔
        ∀ r, r ∈ collection w → ¬ shares_ingredient selected r) ∧
       (l ≠ [] → ResultsScreen (App.recipes (app d')) = Cards (card <$> l)) ∧
       length l ≤ 3.
Proof.
  intros Hc Hup d' selected. subst selected.
  destruct (complete_guards (app d) Hc) as (Hg1 & Hg2 & _).
  destruct (posted_well_formed (app d) Hc) as (Hm & Hi & Hm' & Hi').
  pose proof (get_recipes_run (posted (app d)) _ _ Hm Hi Hm' Hi' w Hup) as Hrun.
  set (l := topRecipes (scoredRecipes (App.selectedIngredients (app d))
                          (fired (finalMood (app d)) (App.selectedIngredients (app d))
                                 (collection w)))) in *.
  exists l. subst d'. unfold submitRequest. rewrite Hg1, Hg2, Hrun.
  cbn [fst snd app storage alerts with_app saveData setLoading setCurrentScreen
       setRecipes data_of App.recipes App.currentScreen App.loading
       App.selectedMood App.selectedIngredients].
  assert (Hlen : length l = min 3 (length (fired (finalMood (app d))
                                             (App.selectedIngredients (app d))
                                             (collection w)))).
  { unfold l, topRecipes, slice0, scoredRecipes.
    by rewrite length_take, sort_length, length_fmap. }
  assert (Hnil : l = [] ↔ ∀ r, r ∈ collection w →
                        ¬ shares_ingredient (App.selectedIngredients (app d)) r).
  { rewrite <- (fired_nil_iff (finalMood (app d))). split.
    - intros E. rewrite E in Hlen at 1.
      destruct (fired _ _ _); [done | simpl in Hlen; lia].
    - intros E. apply nil_length_inv. by rewrite Hlen, E. }
  repeat split; try done.
  - unfold ResultsScreen. intros Hv. apply Hnil.
    destruct l; [done | discriminate Hv].
  - unfold ResultsScreen. intros Hv. apply Hnil in Hv. by rewrite Hv.
  - intros Hne. unfold ResultsScreen. destruct l; [done | reflexivity].
  - rewrite Hlen. lia.
Qed.

Lemma submit_shows_reply_witness :
  complete typed_mood_app ∧ connected catalog_store = true ∧
  ∃ l, App.recipes (app (fst (submitRequest true (sample_device typed_mood_app)
                                catalog_store))) = data_list l ∧
       length l ≤ 3.
Proof.
  assert (Hc : complete typed_mood_app).
  { split; [left; discriminate | discriminate]. }
  split; [exact Hc|]. split; [reflexivity|].
  destruct (submit_shows_reply (sample_device typed_mood_app) catalog_store Hc eq_refl)
    as (l & _ & H1 & _ & _ & _ & _ & _ & _ & _ & H2).
  exists l. split; [exact H1 | exact H2].
Defined.



(** A complete request that does not reach the server: one alert is
    shown, loading stops, and the recipes, the screen, the storage and the
    store are as before. *)
Theorem submit_offline_alerts (d : Device) (w : World) :
  complete (app d) →
  let d' := fst (submitRequest false d w) in
  snd (submitRequest false d w) = w ∧
  alerts d'
  = alerts d ++ [("Error"%string,
                  "Failed to get recipes. Please check your connection."%string)] ∧
  App.recipes (app d') = App.recipes (app d) ∧
  App.currentScreen (app d') = App.currentScreen (app d) ∧
  App.loading (app d') = false ∧
  storage d' = storage d.
Proof.
  intros Hc d'.
  destruct (complete_guards (app d) Hc) as (Hg1 & Hg2 & _).
  subst d'. unfold submitRequest. rewrite Hg1, Hg2. done.
Qed.

Lemma submit_offline_alerts_witness :
  complete typed_mood_app ∧
  snd (submitRequest false (sample_device typed_mood_app) catalog_store)
  = catalog_store.
Proof.
  assert (Hc : complete typed_mood_app).
  { split; [left; discriminate | discriminate]. }
  split; [exact Hc|].
  exact (proj1 (submit_offline_alerts (sample_device typed_mood_app)
                  catalog_store Hc)).
Defined.

(** ** Saved data *)

(** What [saveData] wrote, [loadSavedData] reads back: the selected
    ingredients always, and the selected mood unless it was empty, in which
    case the mood of the state is kept. The typed mood is not saved. With
    nothing saved, [loadSavedData] changes nothing. *)
Theorem load_after_save (d : Device) (a0 : App.t) (shown : list (string * string)) :
  let d2 := loadSavedData (mkDevice a0 (storage (saveData d)) shown) in
  App.selectedIngredients (app d2) = App.selectedIngredients (app d) ∧
  (App.selectedMood (app d) ≠ ""%string →
   App.selectedMood (app d2) = App.selectedMood (app d)) ∧
  (App.selectedMood (app d) = ""%string →
   App.selectedMood (app d2) = App.selectedMood a0) ∧
  App.customMood (app d2) = App.customMood a0 ∧
  loadSavedData (mkDevice a0 (Storage.mk None None) shown)
  = mkDevice a0 (Storage.mk None None) shown.
Proof.
  cbn zeta. unfold loadSavedData, saveData. cbn [storage Storage.selectedMood
    Storage.selectedIngredients].
  destruct (String.eqb (App.selectedMood (app d)) "") eqn:E;
    rewrite ?String.eqb_eq, ?String.eqb_neq in E; simpl; repeat split; try done.
Qed.
